(** * veneur: worker aggregation state and the flush pipeline

    A shallow embedding of [worker.go] (the [Worker] type with
    [ProcessMetric] and [Flush]) and of the server side flush
    ([Server.Flush] and [Server.flushPart]), followed by the properties
    the specification states about them. *)

From Stdlib Require Import Ascii.
From stdpp Require Import base numbers list list_numbers strings gmap pretty.

Local Open Scope Z_scope.

(** ** Go's [int] and [int64]

    Both are 64-bit two's complement on the platforms veneur runs on.
    Arithmetic wraps silently; integer division truncates towards zero
    and panics on a zero divisor. *)

Definition int_min : Z := - 2 ^ 63.
Definition int_max : Z := 2 ^ 63 - 1.

Definition wrap64 (z : Z) : Z := (z + 2 ^ 63) `mod` 2 ^ 64 - 2 ^ 63.

Definition int_add (a b : Z) : Z := wrap64 (a + b).
Definition int_sub (a b : Z) : Z := wrap64 (a - b).
Definition int_mul (a b : Z) : Z := wrap64 (a * b).

(** [a / b]: [None] is the run-time panic "integer divide by zero". *)
Definition int_quo (a b : Z) : option Z :=
  if decide (b = 0) then None else Some (wrap64 (a `quot` b)).

(** ** Go slices

    A slice is modelled by the list of its elements.  Every slice that is
    re-sliced in this code has its capacity equal to its length
    ([finalMetrics] is made with capacity [totalCount] and receives exactly
    [totalCount] elements), so the bound of [s[:hi]] is the length.
    [None] is the run-time panic "slice bounds out of range". *)

Definition len {A} (l : list A) : Z := Z.of_nat (length l).
Global Arguments len : simpl never.

(** [s[lo:]] *)
Definition slice_from {A} (s : list A) (lo : Z) : option (list A) :=
  if decide (0 ≤ lo ≤ len s) then Some (drop (Z.to_nat lo) s) else None.

(** [s[:hi]] *)
Definition slice_to {A} (s : list A) (hi : Z) : option (list A) :=
  if decide (0 ≤ hi ≤ len s) then Some (take (Z.to_nat hi) s) else None.

(** ** The collaborators of the worker

    [Metric], [DDMetric] and the four samplers ([Counter], [Gauge],
    [Histo], [Set]) are declared in files of the repository other than the
    two embedded here.  The code below only constructs samplers, feeds
    them samples and flushes them, so they are taken as an interface: the
    carrier types and the operations the two files call. *)

(** A [DDMetric] as the flush pipeline sees it: the fields the sampler
    fills in (name, value, tags, type, ...), of a type [F] left to the
    samplers, and the [Hostname] field that [Server.Flush] assigns. *)
Record DDMetric (F : Type) := mkDDMetric {
  dd_fields : F;
  dd_Hostname : string;
}.
Arguments mkDDMetric {F} _ _.
Arguments dd_fields {F} _.
Arguments dd_Hostname {F} _.

Class Samplers := {
  (** Go's [float64] and [float32]: carried around, never computed with. *)
  float64 : Type;
  float32 : Type;
  (** [time.Duration] *)
  Duration : Type;
  (** The fields of a [DDMetric] other than [Hostname]. *)
  DDFields : Type;
  Counter : Type;
  Gauge : Type;
  Histo : Type;
  SetSampler : Type;
  NewCounter : string → list string → Counter;
  NewGauge : string → list string → Gauge;
  NewHist : string → list string → list float64 → bool → Histo;
  NewSet : string → list string → Z → float64 → SetSampler;
  Counter_Sample : Counter → float64 → float32 → Counter;
  Gauge_Sample : Gauge → float64 → float32 → Gauge;
  Histo_Sample : Histo → float64 → float32 → Histo;
  Set_Sample : SetSampler → string → float32 → SetSampler;
  Counter_Flush : Counter → Duration → list (DDMetric DDFields);
  Gauge_Flush : Gauge → list (DDMetric DDFields);
  Histo_Flush : Histo → Duration → list (DDMetric DDFields);
  Set_Flush : SetSampler → list (DDMetric DDFields);
}.

Section Model.
Context `{Samplers}.

Local Abbreviation DDM := (DDMetric DDFields).

(** [m.Value] has type [interface{}]: a dynamically typed value.  The
    assertions [m.Value.(float64)] and [m.Value.(string)] panic on any
    other dynamic type (and on [nil]). *)
Inductive DynValue :=
| VFloat64 (f : float64)
| VString (s : string)
| VOther.

Definition assert_float64 (v : DynValue) : option float64 :=
  match v with VFloat64 f => Some f | _ => None end.

Definition assert_string (v : DynValue) : option string :=
  match v with VString s => Some s | _ => None end.

Record Metric := mkMetric {
  m_Name : string;
  m_Digest : Z;          (* uint32 *)
  m_Type : string;
  m_Value : DynValue;
  m_SampleRate : float32;
  m_Tags : list string;
}.

(** ** What the code does to the outside world

    Logging, the statsd client, the mutex and the HTTP client are
    recorded as a trace of events, in program order. *)

Inductive Level := Debug | Info | Error.

Inductive FieldValue :=
| FStr (s : string)
| FInt (n : Z)
| FErr                   (* the [error] passed to [WithError] *)
| FHeader (h : list (string * string)).

(** The sample rate of a statsd call: the code passes 1.0 or 0.1. *)
Inductive StatRate := Rate_1_0 | Rate_0_1.

Record Request := mkRequest {
  rq_Method : string;
  rq_URL : string;
  rq_Body : list Byte.byte;
  rq_Header : list (string * string);
}.

Inductive Event :=
| ELog (lvl : Level) (fields : list (string * FieldValue)) (msg : string)
| ECount (name : string) (value : Z) (tags : list string) (rate : StatRate)
| EGauge (name : string) (value : Z) (tags : list string) (rate : StatRate)
| EHistogram (name : string) (value : Z) (tags : list string) (rate : StatRate)
  (** [TimeInMilliseconds]: the value is a wall-clock difference *)
| ETiming (name : string) (tags : list string) (rate : StatRate)
| ELock
| EUnlock
  (** [http.DefaultClient.Do] *)
| EHttpDo (req : Request)
  (** a sampler's [Flush] method runs *)
| ESamplerFlush (kind : string) (digest : Z).

(** ** The worker *)

Record Worker := mkWorker {
  w_id : Z;
  w_metrics : Z;                       (* int64 *)
  w_counters : gmap Z Counter;
  w_gauges : gmap Z Gauge;
  w_histograms : gmap Z Histo;
  w_sets : gmap Z SetSampler;
  w_timers : gmap Z Histo;
  w_histogramPercentiles : list float64;
  w_histogramCounter : bool;
  w_bloomSetSize : Z;                  (* uint *)
  w_bloomSetAccuracy : float64;
}.

(** [NewWorker] *)
Definition NewWorker (id : Z) (percentiles : list float64)
    (histogramCounter : bool) (setSize : Z) (setAccuracy : float64) : Worker :=
  {| w_id := id;
     w_metrics := 0;
     w_counters := ∅;
     w_gauges := ∅;
     w_histograms := ∅;
     w_sets := ∅;
     w_timers := ∅;
     w_histogramPercentiles := percentiles;
     w_histogramCounter := histogramCounter;
     w_bloomSetSize := setSize;
     w_bloomSetAccuracy := setAccuracy |}.

Definition set_metrics (n : Z) (w : Worker) : Worker :=
  {| w_id := w_id w; w_metrics := n;
     w_counters := w_counters w; w_gauges := w_gauges w;
     w_histograms := w_histograms w; w_sets := w_sets w;
     w_timers := w_timers w;
     w_histogramPercentiles := w_histogramPercentiles w;
     w_histogramCounter := w_histogramCounter w;
     w_bloomSetSize := w_bloomSetSize w;
     w_bloomSetAccuracy := w_bloomSetAccuracy w |}.

Definition set_counters (c : gmap Z Counter) (w : Worker) : Worker :=
  {| w_id := w_id w; w_metrics := w_metrics w;
     w_counters := c; w_gauges := w_gauges w;
     w_histograms := w_histograms w; w_sets := w_sets w;
     w_timers := w_timers w;
     w_histogramPercentiles := w_histogramPercentiles w;
     w_histogramCounter := w_histogramCounter w;
     w_bloomSetSize := w_bloomSetSize w;
     w_bloomSetAccuracy := w_bloomSetAccuracy w |}.

Definition set_gauges (g : gmap Z Gauge) (w : Worker) : Worker :=
  {| w_id := w_id w; w_metrics := w_metrics w;
     w_counters := w_counters w; w_gauges := g;
     w_histograms := w_histograms w; w_sets := w_sets w;
     w_timers := w_timers w;
     w_histogramPercentiles := w_histogramPercentiles w;
     w_histogramCounter := w_histogramCounter w;
     w_bloomSetSize := w_bloomSetSize w;
     w_bloomSetAccuracy := w_bloomSetAccuracy w |}.

Definition set_histograms (h : gmap Z Histo) (w : Worker) : Worker :=
  {| w_id := w_id w; w_metrics := w_metrics w;
     w_counters := w_counters w; w_gauges := w_gauges w;
     w_histograms := h; w_sets := w_sets w;
     w_timers := w_timers w;
     w_histogramPercentiles := w_histogramPercentiles w;
     w_histogramCounter := w_histogramCounter w;
     w_bloomSetSize := w_bloomSetSize w;
     w_bloomSetAccuracy := w_bloomSetAccuracy w |}.

Definition set_sets (s : gmap Z SetSampler) (w : Worker) : Worker :=
  {| w_id := w_id w; w_metrics := w_metrics w;
     w_counters := w_counters w; w_gauges := w_gauges w;
     w_histograms := w_histograms w; w_sets := s;
     w_timers := w_timers w;
     w_histogramPercentiles := w_histogramPercentiles w;
     w_histogramCounter := w_histogramCounter w;
     w_bloomSetSize := w_bloomSetSize w;
     w_bloomSetAccuracy := w_bloomSetAccuracy w |}.

Definition set_timers (t : gmap Z Histo) (w : Worker) : Worker :=
  {| w_id := w_id w; w_metrics := w_metrics w;
     w_counters := w_counters w; w_gauges := w_gauges w;
     w_histograms := w_histograms w; w_sets := w_sets w;
     w_timers := t;
     w_histogramPercentiles := w_histogramPercentiles w;
     w_histogramCounter := w_histogramCounter w;
     w_bloomSetSize := w_bloomSetSize w;
     w_bloomSetAccuracy := w_bloomSetAccuracy w |}.

(** How a call ends: it returns, or a run-time panic unwinds it. *)
Inductive Completion := Returns | Panics.

(** The log line of the [if !present] branch. *)
Definition log_new (present : bool) (name msg : string) : list Event :=
  if present then [] else [ELog Debug [("name", FStr name)] msg].

(** [w.metrics++] *)
Definition count_metric (w : Worker) : Worker :=
  set_metrics (int_add (w_metrics w) 1) w.

(** The [switch m.Type] of [ProcessMetric]: the state it leaves, its
    events and how it ended.  A type assertion that fails panics; the
    state a panic leaves behind holds, for a new digest, the fresh
    sampler. *)
Definition sample_metric (w : Worker) (m : Metric)
    : Worker * list Event * Completion :=
  let d := m_Digest m in
  if decide (m_Type m = "counter") then
    let present := bool_decide (is_Some (w_counters w !! d)) in
    let w := if present then w else
      set_counters (<[d := NewCounter (m_Name m) (m_Tags m)]> (w_counters w)) w in
    let tr := log_new present (m_Name m) "New counter" in
    match assert_float64 (m_Value m) with
    | Some v =>
        (set_counters
           (alter (λ c, Counter_Sample c v (m_SampleRate m)) d (w_counters w)) w,
         tr, Returns)
    | None => (w, tr, Panics)
    end
  else if decide (m_Type m = "gauge") then
    let present := bool_decide (is_Some (w_gauges w !! d)) in
    let w := if present then w else
      set_gauges (<[d := NewGauge (m_Name m) (m_Tags m)]> (w_gauges w)) w in
    let tr := log_new present (m_Name m) "New gauge" in
    match assert_float64 (m_Value m) with
    | Some v =>
        (set_gauges
           (alter (λ g, Gauge_Sample g v (m_SampleRate m)) d (w_gauges w)) w,
         tr, Returns)
    | None => (w, tr, Panics)
    end
  else if decide (m_Type m = "histogram") then
    let present := bool_decide (is_Some (w_histograms w !! d)) in
    let w := if present then w else
      set_histograms
        (<[d := NewHist (m_Name m) (m_Tags m)
                  (w_histogramPercentiles w) (w_histogramCounter w)]>
           (w_histograms w)) w in
    let tr := log_new present (m_Name m) "New histogram" in
    match assert_float64 (m_Value m) with
    | Some v =>
        (set_histograms
           (alter (λ h, Histo_Sample h v (m_SampleRate m)) d (w_histograms w)) w,
         tr, Returns)
    | None => (w, tr, Panics)
    end
  else if decide (m_Type m = "set") then
    let present := bool_decide (is_Some (w_sets w !! d)) in
    let w := if present then w else
      set_sets
        (<[d := NewSet (m_Name m) (m_Tags m)
                  (w_bloomSetSize w) (w_bloomSetAccuracy w)]>
           (w_sets w)) w in
    let tr := log_new present (m_Name m) "New set" in
    match assert_string (m_Value m) with
    | Some v =>
        (set_sets
           (alter (λ s, Set_Sample s v (m_SampleRate m)) d (w_sets w)) w,
         tr, Returns)
    | None => (w, tr, Panics)
    end
  else if decide (m_Type m = "timer") then
    let present := bool_decide (is_Some (w_timers w !! d)) in
    let w := if present then w else
      set_timers
        (<[d := NewHist (m_Name m) (m_Tags m)
                  (w_histogramPercentiles w) (w_histogramCounter w)]>
           (w_timers w)) w in
    let tr := log_new present (m_Name m) "New timer" in
    match assert_float64 (m_Value m) with
    | Some v =>
        (set_timers
           (alter (λ h, Histo_Sample h v (m_SampleRate m)) d (w_timers w)) w,
         tr, Returns)
    | None => (w, tr, Panics)
    end
  else
    (w, [ELog Error [("type", FStr (m_Type m))] "Unknown metric type"], Returns).

(** [ProcessMetric]: the state after the call, the events in program order
    and how the call ended.  The deferred [Unlock] runs on every exit, also
    when the call panics. *)
Definition Worker_ProcessMetric (w : Worker) (m : Metric)
    : Worker * list Event * Completion :=
  let '(w, tr, c) := sample_metric (count_metric w) m in
  (w, [ELock] ++ tr ++ [EUnlock], c).

(** [for _, v := range m { postMetrics = append(postMetrics, v.Flush(..)...) }]

    Go leaves the iteration order of a map unspecified; the embedding
    iterates in the order of [map_to_list].  Nothing stated below depends
    on that order. *)
Definition range_flush {S} (kind : string) (flush : S → list DDM)
    (m : gmap Z S) : list DDM * list Event :=
  (flat_map (λ kv, flush kv.2) (map_to_list m),
   (λ kv, ESamplerFlush kind kv.1) <$> map_to_list m).

(** The maps a [Flush] call takes out of the worker under the lock. *)
Record Snapshot := mkSnapshot {
  sn_counters : gmap Z Counter;
  sn_gauges : gmap Z Gauge;
  sn_histograms : gmap Z Histo;
  sn_sets : gmap Z SetSampler;
  sn_timers : gmap Z Histo;
}.

(** Lines 129 to 134 of [worker.go]: [Flush] takes the five maps and
    reports the number of observations processed. *)
Definition take_maps (w : Worker) : Snapshot * list Event :=
  ({| sn_counters := w_counters w; sn_gauges := w_gauges w;
      sn_histograms := w_histograms w; sn_sets := w_sets w;
      sn_timers := w_timers w |},
   [ECount "worker.metrics_processed_total" (w_metrics w)
      ["worker:" +:+ pretty (w_id w)] Rate_1_0]).

(** Lines 136 to 141: fresh maps are installed and the counter is reset. *)
Definition reset_maps (w : Worker) : Worker :=
  let w := set_counters ∅ w in
  let w := set_gauges ∅ w in
  let w := set_histograms ∅ w in
  let w := set_sets ∅ w in
  let w := set_timers ∅ w in
  set_metrics 0 w.

(** Lines 144 to 173: the work on the maps taken, after [Unlock]. *)
Definition flush_emit (snap : Snapshot) (interval : Duration)
    : list DDM * list Event :=
  let '(o1, t1) := range_flush "counter" (λ v, Counter_Flush v interval) (sn_counters snap) in
  let '(o2, t2) := range_flush "gauge" Gauge_Flush (sn_gauges snap) in
  let '(o3, t3) := range_flush "histogram" (λ v, Histo_Flush v interval) (sn_histograms snap) in
  let '(o4, t4) := range_flush "set" Set_Flush (sn_sets snap) in
  let '(o5, t5) := range_flush "timer" (λ v, Histo_Flush v interval) (sn_timers snap) in
  (o1 ++ o2 ++ o3 ++ o4 ++ o5,
   [ETiming "flush.worker_duration_ns" [] Rate_1_0]
   ++ [ECount "worker.metrics_flushed_total" (Z.of_nat (size (sn_counters snap)))
         ["metric_type:counter"] Rate_1_0] ++ t1
   ++ [ECount "worker.metrics_flushed_total" (Z.of_nat (size (sn_gauges snap)))
         ["metric_type:gauge"] Rate_1_0] ++ t2
   ++ [ECount "worker.metrics_flushed_total" (Z.of_nat (size (sn_histograms snap)))
         ["metric_type:histogram"] Rate_1_0] ++ t3
   ++ [ECount "worker.metrics_flushed_total" (Z.of_nat (size (sn_sets snap)))
         ["metric_type:set"] Rate_1_0] ++ t4
   ++ [ECount "worker.metrics_flushed_total" (Z.of_nat (size (sn_timers snap)))
         ["metric_type:timer"] Rate_1_0] ++ t5).

(** [Worker.Flush].  The preallocation of [postMetrics] only chooses a
    capacity and is not modelled. *)
Definition Worker_Flush (w : Worker) (interval : Duration)
    : Worker * list DDM * list Event :=
  let '(snap, t1) := take_maps w in
  let w' := reset_maps w in
  let '(out, t2) := flush_emit snap interval in
  (w', out, [ELock] ++ t1 ++ [EUnlock] ++ t2).

(** ** The server side of a flush *)

(** The fields of [Server] that the two functions read (the struct itself
    is declared in another file of the repository). *)
Record Server := mkServer {
  s_Workers : list Worker;
  s_Hostname : string;
  s_DDHostname : string;
  s_DDAPIKey : string;
}.

Record Response := mkResponse {
  rs_StatusCode : Z;
  rs_Status : string;
  rs_Header : list (string * string);
  (** what [ioutil.ReadAll(resp.Body)] returns: the bytes read and whether
      it also returned an error *)
  rs_Body : string;
  rs_ReadErr : bool;
}.

(** What the libraries and the network answer to one [flushPart] call;
    [None] is a non-nil [err]. *)
Record World := mkWorld {
  (** [json.NewEncoder(zlib.NewWriter(&reqBody)).Encode] and
      [compressor.Close]: the bytes left in [reqBody] *)
  json_zlib : list DDM → option (list Byte.byte);
  http_NewRequest : string → string → list Byte.byte → option Request;
  http_Do : Request → option Response;
}.

(** [req.Header.Set] *)
Definition Header_Set (k v : string) (rq : Request) : Request :=
  {| rq_Method := rq_Method rq; rq_URL := rq_URL rq; rq_Body := rq_Body rq;
     rq_Header := (k, v) :: filter (λ kv, kv.1 ≠ k) (rq_Header rq) |}.

Definition StatusAccepted : Z := 202.

(** [Server.flushPart]: the events of one chunk submission. *)
Definition Server_flushPart (s : Server) (env : World) (metricSlice : list DDM)
    : list Event :=
  match json_zlib env metricSlice with
  | None =>
      [ECount "flush.error_total" (len metricSlice) ["cause:json"] Rate_1_0;
       ELog Error [("error", FErr)] "Error rendering JSON request body"]
  | Some reqBody =>
      let bodyLength := len reqBody in
      [ETiming "flush.part_duration_ns" ["part:marshal"] Rate_1_0;
       EHistogram "flush.content_length_bytes" bodyLength [] Rate_1_0] ++
      match http_NewRequest env "POST"
              (s_DDHostname s +:+ "/api/v1/series?api_key=" +:+ s_DDAPIKey s)
              reqBody with
      | None =>
          [ECount "flush.error_total" (len metricSlice) ["cause:construct"] Rate_1_0;
           ELog Error [("error", FErr)] "Error constructing POST request"]
      | Some req =>
          let req := Header_Set "Content-Type" "application/json" req in
          let req := Header_Set "Content-Encoding" "deflate" req in
          EHttpDo req ::
          match http_Do env req with
          | None =>
              [ECount "flush.error_total" (len metricSlice) ["cause:io"] Rate_1_0;
               ELog Error [("error", FErr)] "Error writing POST request"]
          | Some resp =>
              let resultFields :=
                [("status", FStr (rs_Status resp));
                 ("request_headers", FHeader (rq_Header req));
                 ("response_headers", FHeader (rs_Header resp));
                 ("request_length", FInt bodyLength);
                 ("response", FStr (rs_Body resp));
                 ("total_metrics", FInt (len metricSlice))] in
              [ETiming "flush.part_duration_ns" ["part:post"] Rate_1_0] ++
              (if rs_ReadErr resp
               then [ELog Error [("error", FErr)] "Error reading response body"]
               else []) ++
              if decide (rs_StatusCode resp ≠ StatusAccepted) then
                [ECount "flush.error_total" (len metricSlice)
                   ["cause:" +:+ pretty (rs_StatusCode resp)] Rate_1_0;
                 ELog Error resultFields "Error POSTing"]
              else
                [ELog Debug resultFields "POSTing JSON"]
          end
      end
  end.

(** The first loop of [Server.Flush]: every worker is flushed in turn;
    [i] is the index of the first worker of [ws]. *)
Fixpoint flush_workers (ws : list Worker) (i : Z) (interval : Duration)
    (totalCount : Z) : list Worker * list (list DDM) * Z * list Event :=
  match ws with
  | [] => ([], [], totalCount, [])
  | w :: ws =>
      let '(w', tmp, t) := Worker_Flush w interval in
      let totalCount := int_add totalCount (len tmp) in
      let '(ws', outs, totalCount, t') :=
        flush_workers ws (i + 1) interval totalCount in
      (w' :: ws', tmp :: outs, totalCount,
       ELog Debug [("worker", FInt i)] "Flushing" :: t ++ t')
  end.

Definition set_Hostname (h : string) (d : DDM) : DDM :=
  {| dd_fields := dd_fields d; dd_Hostname := h |}.

(** [finalMetrics] as it stands at line 35: [postMetrics] starts as
    [len(s.Workers)] nil slices and the workers' outputs are appended to
    it; everything is then concatenated and stamped with the hostname. *)
Definition collect (s : Server) (outs : list (list DDM)) : list DDM :=
  let postMetrics := replicate (length (s_Workers s)) [] ++ outs in
  set_Hostname (s_Hostname s) <$> concat postMetrics.

(** The body of the loop at lines 52 to 60: the chunk handed to the
    [i]-th [flushPart]. *)
Definition chunk_at (finalMetrics : list DDM) (workers chunkSize i : Z)
    : option (list DDM) :=
  chunk ← slice_from finalMetrics (int_mul i chunkSize);
  if decide (i < int_sub workers 1) then slice_to chunk chunkSize
  else Some chunk.

(** Lines 46 to 60.  The loop counter runs over [0 .. workers-1]; it stays
    below [workers], so [i++] never wraps. *)
Definition chunks (finalMetrics : list DDM) (totalCount metricLimit : Z)
    : option (Z * Z * list (list DDM)) :=
  q ← int_quo (int_sub totalCount 1) metricLimit;
  let workers := int_add q 1 in
  q' ← int_quo (int_sub totalCount 1) workers;
  let chunkSize := int_add q' 1 in
  cs ← mapM (chunk_at finalMetrics workers chunkSize) (seqZ 0 workers);
  Some (workers, chunkSize, cs).

Record FlushResult := mkFlushResult {
  (** the server, its workers reset *)
  fr_server : Server;
  (** the events of the calling goroutine *)
  fr_trace : list Event;
  (** one entry per [go s.flushPart(chunk, &wg)]: the chunk and the events
      of that goroutine *)
  fr_parts : list (list DDM * list Event);
}.

Definition with_Workers (ws : list Worker) (s : Server) : Server :=
  {| s_Workers := ws; s_Hostname := s_Hostname s;
     s_DDHostname := s_DDHostname s; s_DDAPIKey := s_DDAPIKey s |}.

(** [Server.Flush].  [world i] is what the [i]-th [flushPart] goroutine
    meets; the [WaitGroup] makes the caller wait until every one of them
    has ended, so their traces are complete when [Flush] goes on.  [None]
    is a run-time panic (a zero divisor or a slice bound). *)
Definition Server_Flush (s : Server) (interval : Duration) (metricLimit : Z)
    (world : Z → World) : option FlushResult :=
  let '(ws', outs, totalCount, t0) := flush_workers (s_Workers s) 0 interval 0 in
  let finalMetrics := collect s outs in
  let s' := with_Workers ws' s in
  let t1 := t0 ++ [EGauge "flush.post_metrics_total" totalCount [] Rate_1_0] in
  if decide (totalCount = 0) then
    Some {| fr_server := s';
            fr_trace := t1 ++ [ELog Info [] "Nothing to flush, skipping."];
            fr_parts := [] |}
  else
    '(workers, chunkSize, cs) ← chunks finalMetrics totalCount metricLimit;
    Some {| fr_server := s';
            fr_trace := t1 ++
              [ELog Debug [("workers", FInt workers)] "Worker count chosen";
               ELog Debug [("chunkSize", FInt chunkSize)] "Chunk size chosen";
               ETiming "flush.total_duration_ns" [] Rate_1_0;
               ECount "flush.error_total" 0 [] Rate_0_1;
               ELog Info [("metrics", FInt totalCount)] "Completed flush to Datadog"];
            fr_parts :=
              imap (λ i chunk, (chunk, Server_flushPart s (world (Z.of_nat i)) chunk)) cs |}.

(** The combined record sequence of a flush cycle, and its length. *)
Definition finalMetrics_of (s : Server) (interval : Duration) : list DDM :=
  collect s (flush_workers (s_Workers s) 0 interval 0).1.1.2.

(** Rounding-up division of the specification: [ceil(a / b)] for [b > 0]. *)
Definition ceil_div (a b : Z) : Z := (a + b - 1) `div` b.

(** ** Reading a trace *)

(** The five kinds [ProcessMetric] knows. *)
Definition known_kinds : list string :=
  ["counter"; "gauge"; "histogram"; "set"; "timer"].

(** The dynamic type of [m.Value] is the one the kind's sampler takes:
    [float64] for counter, gauge, histogram and timer, [string] for set. *)
Definition value_matches_kind (m : Metric) : bool :=
  if decide (m_Type m ∈ ["counter"; "gauge"; "histogram"; "timer"]) then
    match m_Value m with VFloat64 _ => true | _ => false end
  else if decide (m_Type m = "set") then
    match m_Value m with VString _ => true | _ => false end
  else true.

(** The records the samplers of a worker flush to. *)
Definition accumulated (w : Worker) (interval : Duration) (r : DDM) : Prop :=
  (∃ d v, w_counters w !! d = Some v ∧ r ∈ Counter_Flush v interval) ∨
  (∃ d v, w_gauges w !! d = Some v ∧ r ∈ Gauge_Flush v) ∨
  (∃ d v, w_histograms w !! d = Some v ∧ r ∈ Histo_Flush v interval) ∨
  (∃ d v, w_sets w !! d = Some v ∧ r ∈ Set_Flush v) ∨
  (∃ d v, w_timers w !! d = Some v ∧ r ∈ Histo_Flush v interval).

(** The five maps of a worker. *)
Definition maps_of (w : Worker) : Snapshot := (take_maps w).1.

Definition empty_maps : Snapshot :=
  {| sn_counters := ∅; sn_gauges := ∅; sn_histograms := ∅;
     sn_sets := ∅; sn_timers := ∅ |}.

(** The events of a trace that happen while the mutex is held; [held]
    tells whether it is held when the trace starts. *)
Fixpoint while_locked (held : bool) (tr : list Event) : list Event :=
  match tr with
  | [] => []
  | ELock :: tr => while_locked true tr
  | EUnlock :: tr => while_locked false tr
  | e :: tr => if held then e :: while_locked held tr else while_locked held tr
  end.

(** Events that go over the network: the statsd client writes to a UDP
    socket, the HTTP client to the backend. *)
Definition is_network (e : Event) : bool :=
  match e with
  | ECount _ _ _ _ | EGauge _ _ _ _ | EHistogram _ _ _ _ | ETiming _ _ _
  | EHttpDo _ => true
  | _ => false
  end.

Definition is_sampler_flush (e : Event) : bool :=
  match e with ESamplerFlush _ _ => true | _ => false end.

(** The ways the code records an error: a log line at level [Error], or a
    non-zero count on [flush.error_total]. *)
Definition is_error (e : Event) : bool :=
  match e with
  | ELog Error _ _ => true
  | ECount name value _ _ =>
      bool_decide (name = "flush.error_total" ∧ value ≠ 0)
  | _ => false
  end.

(** The failures a [flushPart] trace counts: value and tags of every
    count on [flush.error_total]. *)
Definition failures (tr : list Event) : list (Z * list string) :=
  omap (λ e, match e with
             | ECount name value tags _ =>
                 if decide (name = "flush.error_total")
                 then Some (value, tags) else None
             | _ => None
             end) tr.

Definition is_http_do (e : Event) : bool :=
  match e with EHttpDo _ => true | _ => false end.

(** The number of requests sent. *)
Definition attempts (tr : list Event) : nat :=
  length (filter (λ e, is_http_do e = true) tr).

(** What the outside world did to one submission. *)
Inductive Outcome :=
| SerializationError
| ConstructionError
| TransportError
| Responded (resp : Response).

Definition outcome_of (s : Server) (env : World) (metricSlice : list DDM)
    : Outcome :=
  match json_zlib env metricSlice with
  | None => SerializationError
  | Some reqBody =>
      match http_NewRequest env "POST"
              (s_DDHostname s +:+ "/api/v1/series?api_key=" +:+ s_DDAPIKey s)
              reqBody with
      | None => ConstructionError
      | Some req =>
          match http_Do env
                  (Header_Set "Content-Encoding" "deflate"
                     (Header_Set "Content-Type" "application/json" req)) with
          | None => TransportError
          | Some resp => Responded resp
          end
      end
  end.

(** ** Concurrent calls on one worker

    Goroutines that call [ProcessMetric] and one goroutine that calls
    [Flush] share a worker and its mutex.  Each call advances in the steps
    below; a scheduler picks which goroutine takes its next step.  A
    goroutine at [Lock] can only step when the mutex is free, and a call
    whose type assertion panics ends the program. *)

Inductive ProcessPc :=
| P_start      (* before [w.mutex.Lock()] *)
| P_locked     (* before [w.metrics++] *)
| P_counted    (* before the [switch] *)
| P_sampled    (* before the deferred [Unlock] *)
| P_done.

Inductive FlushPc :=
| F_start                      (* before [w.mutex.Lock()] *)
| F_locked                     (* before line 129 *)
| F_taken (snap : Snapshot)    (* before line 136 *)
| F_reset (snap : Snapshot)    (* before [w.mutex.Unlock()] *)
| F_unlocked (snap : Snapshot) (* before line 144 *)
| F_done (out : list DDM).

(** The order in which critical sections took effect: an observation is
    entered when its [switch] has run, the flush when the fresh maps are
    installed. *)
Inductive Action :=
| AProcess (m : Metric)
| ASwap.

Record Config := mkConfig {
  c_worker : Worker;
  c_mutex : bool;
  c_flush : FlushPc;
  c_procs : list (Metric * ProcessPc);
  c_hist : list Action;
}.

Inductive Choice :=
| RunFlush
| RunProcess (i : nat).

(** One step of the chosen goroutine; [None] when it cannot step (it is
    blocked on the mutex, it has returned, there is no such goroutine) or
    when the program dies of a panic. *)
Definition step (interval : Duration) (c : Config) (ch : Choice)
    : option Config :=
  match ch with
  | RunFlush =>
      match c_flush c with
      | F_start =>
          if c_mutex c then None
          else Some (mkConfig (c_worker c) true F_locked (c_procs c) (c_hist c))
      | F_locked =>
          Some (mkConfig (c_worker c) (c_mutex c)
                  (F_taken (take_maps (c_worker c)).1) (c_procs c) (c_hist c))
      | F_taken snap =>
          Some (mkConfig (reset_maps (c_worker c)) (c_mutex c)
                  (F_reset snap) (c_procs c) (c_hist c ++ [ASwap]))
      | F_reset snap =>
          Some (mkConfig (c_worker c) false (F_unlocked snap)
                  (c_procs c) (c_hist c))
      | F_unlocked snap =>
          Some (mkConfig (c_worker c) (c_mutex c)
                  (F_done (flush_emit snap interval).1) (c_procs c) (c_hist c))
      | F_done _ => None
      end
  | RunProcess i =>
      '(m, pc) ← c_procs c !! i;
      match pc with
      | P_start =>
          if c_mutex c then None
          else Some (mkConfig (c_worker c) true (c_flush c)
                       (<[i := (m, P_locked)]> (c_procs c)) (c_hist c))
      | P_locked =>
          Some (mkConfig (count_metric (c_worker c)) (c_mutex c) (c_flush c)
                  (<[i := (m, P_counted)]> (c_procs c)) (c_hist c))
      | P_counted =>
          match sample_metric (c_worker c) m with
          | (w', _, Returns) =>
              Some (mkConfig w' (c_mutex c) (c_flush c)
                      (<[i := (m, P_sampled)]> (c_procs c))
                      (c_hist c ++ [AProcess m]))
          | (_, _, Panics) => None
          end
      | P_sampled =>
          Some (mkConfig (c_worker c) false (c_flush c)
                  (<[i := (m, P_done)]> (c_procs c)) (c_hist c))
      | P_done => None
      end
  end.

(** A schedule, run from a configuration. *)
Fixpoint exec (interval : Duration) (c : Config) (sched : list Choice)
    : option Config :=
  match sched with
  | [] => Some c
  | ch :: sched => c' ← step interval c ch; exec interval c' sched
  end.

(** All calls are about to start. *)
Definition init (w : Worker) (ms : list Metric) : Config :=
  mkConfig w false F_start ((λ m, (m, P_start)) <$> ms) [].

(** The worker after [ProcessMetric] has been called on each observation
    in turn, by one goroutine. *)
Definition run (w : Worker) (ms : list Metric) : Worker :=
  foldl (λ w m, (Worker_ProcessMetric w m).1.1) w ms.

(** The worker after the critical sections of a history took effect one
    after the other. *)
Definition replay_action (w : Worker) (a : Action) : Worker :=
  match a with
  | AProcess m => (Worker_ProcessMetric w m).1.1
  | ASwap => reset_maps w
  end.

Definition replay (w : Worker) (h : list Action) : Worker :=
  foldl replay_action w h.

Definition metrics_of (h : list Action) : list Metric :=
  omap (λ a, match a with AProcess m => Some m | ASwap => None end) h.

(** Where a goroutine stands with respect to the mutex. *)
Definition in_critical_p (pc : ProcessPc) : bool :=
  match pc with P_locked | P_counted | P_sampled => true | _ => false end.

Definition in_critical_f (pc : FlushPc) : bool :=
  match pc with F_locked | F_taken _ | F_reset _ => true | _ => false end.

Definition is_counted (pc : ProcessPc) : bool :=
  match pc with P_counted => true | _ => false end.

Definition is_entered (pc : ProcessPc) : bool :=
  match pc with P_sampled | P_done => true | _ => false end.

Definition count_pc (f : ProcessPc → bool) (procs : list (Metric * ProcessPc))
    : nat :=
  length (filter (λ p, f p.2 = true) procs).

(** The number of goroutines between [Lock] and [Unlock]. *)
Definition holders (c : Config) : nat :=
  ((if in_critical_f (c_flush c) then 1 else 0)
   + count_pc in_critical_p (c_procs c))%nat.

(** What the flush goroutine knows, given the history. *)
Definition flush_view (w0 : Worker) (interval : Duration)
    (pc : FlushPc) (h : list Action) : Prop :=
  match pc with
  | F_start | F_locked => ∃ before, h = AProcess <$> before
  | F_taken snap =>
      ∃ before, h = AProcess <$> before ∧ snap = maps_of (run w0 before)
  | F_reset snap =>
      ∃ before, h = (AProcess <$> before) ++ [ASwap] ∧
                snap = maps_of (run w0 before)
  | F_unlocked snap =>
      ∃ before after,
        h = (AProcess <$> before) ++ ASwap :: (AProcess <$> after) ∧
        snap = maps_of (run w0 before)
  | F_done out =>
      ∃ before after,
        h = (AProcess <$> before) ++ ASwap :: (AProcess <$> after) ∧
        out = (flush_emit (maps_of (run w0 before)) interval).1
  end.

(** What holds of every configuration a schedule can reach from
    [init w0 ms]. *)
Record Reachable_inv (w0 : Worker) (ms : list Metric) (interval : Duration)
    (c : Config) : Prop := mkInv {
  inv_mutex : holders c = if c_mutex c then 1%nat else 0%nat;
  inv_worker :
    c_worker c =
      Nat.iter (count_pc is_counted (c_procs c)) count_metric
        (replay w0 (c_hist c));
  inv_procs : (c_procs c).*1 = ms;
  inv_hist :
    metrics_of (c_hist c)
    ≡ₚ (filter (λ p, is_entered p.2 = true) (c_procs c)).*1;
  inv_flush : flush_view w0 interval (c_flush c) (c_hist c);
}.

End Model.

(** ** An instance of the sampler interface with integer samples

    Used to run the model on concrete inputs: a counter adds its samples
    up, a gauge keeps the last one, a histogram and a set keep them all;
    each sampler flushes to one record. *)
Definition int_samplers : Samplers :=
  {| float64 := Z; float32 := Z; Duration := Z; DDFields := string * Z;
     Counter := Z; Gauge := Z; Histo := list Z; SetSampler := list string;
     NewCounter := λ _ _, 0;
     NewGauge := λ _ _, 0;
     NewHist := λ _ _ _ _, [];
     NewSet := λ _ _ _ _, [];
     Counter_Sample := λ c v _, c + v;
     Gauge_Sample := λ _ v _, v;
     Histo_Sample := λ h v _, v :: h;
     Set_Sample := λ s v _, v :: s;
     Counter_Flush := λ c _, [mkDDMetric ("counter", c) ""];
     Gauge_Flush := λ g, [mkDDMetric ("gauge", g) ""];
     Histo_Flush := λ h _, [mkDDMetric ("histogram", len h) ""];
     Set_Flush := λ s, [mkDDMetric ("set", len s) ""] |}.

Section Examples.
Local Existing Instance int_samplers.

(** A worker that has seen one counter sample. *)
Definition one_counter : Worker :=
  {| w_id := 0; w_metrics := 1;
     w_counters := {[ 7 := 5 ]}; w_gauges := ∅; w_histograms := ∅;
     w_sets := ∅; w_timers := ∅;
     w_histogramPercentiles := []; w_histogramCounter := false;
     w_bloomSetSize := 0; w_bloomSetAccuracy := 0 |}.

(** A worker holding [n] gauges, which flushes to [n] records. *)
Definition gauges_worker (n : Z) : Worker :=
  {| w_id := 0; w_metrics := n;
     w_counters := ∅;
     w_gauges := list_to_map ((λ i, (i, i)) <$> seqZ 0 n);
     w_histograms := ∅; w_sets := ∅; w_timers := ∅;
     w_histogramPercentiles := []; w_histogramCounter := false;
     w_bloomSetSize := 0; w_bloomSetAccuracy := 0 |}.

Definition server_of (ws : list Worker) : Server :=
  {| s_Workers := ws; s_Hostname := "host";
     s_DDHostname := "https://app.datadoghq.com"; s_DDAPIKey := "key" |}.

(** A backend that accepts everything. *)
Definition accepting : World :=
  {| json_zlib := λ _, Some [];
     http_NewRequest := λ meth url body, Some (mkRequest meth url body []);
     http_Do := λ _, Some (mkResponse 202 "202 Accepted" [] "" false) |}.

Definition counter_sample : Metric :=
  {| m_Name := "requests"; m_Digest := 7; m_Type := "counter";
     m_Value := VFloat64 1; m_SampleRate := 1; m_Tags := [] |}.

(** An observation of a kind the worker does not know. *)
Definition unknown_sample : Metric :=
  {| m_Name := "requests"; m_Digest := 7; m_Type := "meter";
     m_Value := VFloat64 1; m_SampleRate := 1; m_Tags := [] |}.

(** A counter observation that carries a string. *)
Definition mistyped_sample : Metric :=
  {| m_Name := "requests"; m_Digest := 7; m_Type := "counter";
     m_Value := VString "1"; m_SampleRate := 1; m_Tags := [] |}.

(** Two [ProcessMetric] calls and a [Flush], interleaved: the first call
    runs to its end, the flush swaps the maps, the second call takes the
    mutex before the flush goes on to its samplers. *)
Definition two_samples : list Metric := [counter_sample; unknown_sample].

Definition interleaved : list Choice :=
  [RunProcess 0; RunProcess 0; RunProcess 0; RunProcess 0;
   RunFlush; RunFlush; RunFlush; RunFlush;
   RunProcess 1; RunFlush; RunProcess 1; RunProcess 1; RunProcess 1].

Definition interleaved_end : Config :=
  default (init one_counter two_samples)
    (exec 0 (init one_counter two_samples) interleaved).

Definition interleaved_out : list (DDMetric DDFields) :=
  match c_flush interleaved_end with F_done out => out | _ => [] end.

End Examples.

(** ** The worker's loop *)

Section WorkLoop.
Context `{Samplers}.
Local Abbreviation DDM := (DDMetric DDFields).

(** What one [select] of [Work] picked: a metric received on [WorkChan],
    or the receive on [QuitChan]. *)
Inductive Selected :=
| Received (m : Metric)
| Quit.

(** How far [Work] got: it returned, it is blocked in [select] with
    nothing to receive, or a panic in [ProcessMetric] went up through it. *)
Inductive WorkEnd := Stopped | Waiting | Crashed.

(** [Work], driven by what its [select] picks each time round the loop. *)
Fixpoint Worker_Work (w : Worker) (picks : list Selected)
    : Worker * list Event * WorkEnd :=
  match picks with
  | [] => (w, [], Waiting)
  | Received m :: picks =>
      let '(w', t, c) := Worker_ProcessMetric w m in
      match c with
      | Returns =>
          let '(w'', t', e) := Worker_Work w' picks in (w'', t ++ t', e)
      | Panics => (w', t, Crashed)
      end
  | Quit :: _ =>
      (w, [ELog Error [("worker", FInt (w_id w))] "Stopping"], Stopped)
  end.

(** ** More ways to read states and traces *)

(** The digests of the observations of one kind. *)
Definition digests_of (kind : string) (ms : list Metric) : gset Z :=
  list_to_set (m_Digest <$> filter (λ m, m_Type m = kind) ms).

(** A sample applied to a sampler of the observation's kind; an
    observation whose value has the wrong dynamic type applies nothing. *)
Definition sample_counter (c : Counter) (m : Metric) : Counter :=
  match m_Value m with
  | VFloat64 v => Counter_Sample c v (m_SampleRate m)
  | _ => c
  end.

Definition sample_gauge (g : Gauge) (m : Metric) : Gauge :=
  match m_Value m with
  | VFloat64 v => Gauge_Sample g v (m_SampleRate m)
  | _ => g
  end.

Definition sample_histo (h : Histo) (m : Metric) : Histo :=
  match m_Value m with
  | VFloat64 v => Histo_Sample h v (m_SampleRate m)
  | _ => h
  end.

Definition sample_set (s : SetSampler) (m : Metric) : SetSampler :=
  match m_Value m with
  | VString v => Set_Sample s v (m_SampleRate m)
  | _ => s
  end.

(** The observations of one kind and one digest, in arrival order. *)
Definition series (kind : string) (d : Z) (ms : list Metric) : list Metric :=
  filter (λ m, m_Type m = kind ∧ m_Digest m = d) ms.

(** A sampler fed a list of observations: each one is applied to the
    sampler there is, or to a fresh one made for it when there is none. *)
Definition fold_series {S} (new : Metric → S) (sample : S → Metric → S)
    (old : option S) (l : list Metric) : option S :=
  foldl (λ o m, Some (sample (default (new m) o) m)) old l.

Global Instance Level_eq_dec : EqDecision Level.
Proof. solve_decision. Defined.

(** The log lines of a trace at one level. *)
Definition logs_at (lvl : Level) (tr : list Event) : list string :=
  omap (λ e, match e with
             | ELog l _ msg => if decide (l = lvl) then Some msg else None
             | _ => None
             end) tr.

(** The records a cycle counted as failed, and those in chunks that were
    accepted. *)
Definition lost (parts : list (list DDM * list Event)) : Z :=
  foldr (λ p acc, foldr Z.add 0 (failures p.2).*1 + acc) 0 parts.

Definition delivered (parts : list (list DDM * list Event)) : Z :=
  foldr (λ p acc, (if decide (failures p.2 = []) then len p.1 else 0) + acc)
    0 parts.

(** The steps a goroutine still has to take. *)
Definition remaining_p (pc : ProcessPc) : nat :=
  match pc with
  | P_start => 4 | P_locked => 3 | P_counted => 2 | P_sampled => 1
  | P_done => 0
  end.

Definition remaining_f (pc : FlushPc) : nat :=
  match pc with
  | F_start => 5 | F_locked => 4 | F_taken _ => 3 | F_reset _ => 2
  | F_unlocked _ => 1 | F_done _ => 0
  end.

Definition remaining (c : Config) : nat :=
  remaining_f (c_flush c)
  + foldr (λ p acc, remaining_p p.2 + acc)%nat 0%nat (c_procs c).

(** Every call has returned. *)
Definition finished (c : Config) : Prop :=
  remaining c = 0%nat.

End WorkLoop.

Section MoreExamples.
Local Existing Instance int_samplers.

(** A server with one worker that holds five gauges, and one cycle of it
    with [metricLimit = 2] against a backend that accepts everything. *)
Definition small_server : Server := server_of [gauges_worker 5].

Definition small_cycle : FlushResult :=
  default (mkFlushResult small_server [] [])
    (Server_Flush small_server 0 2 (λ _, accepting)).

(** A backend that answers 500. *)
Definition rejecting : World :=
  {| json_zlib := λ _, Some [];
     http_NewRequest := λ meth url body, Some (mkRequest meth url body []);
     http_Do :=
       λ _, Some (mkResponse 500 "500 Internal Server Error" [] "" false) |}.

(** The backend rejects the second chunk only. *)
Definition rejecting_second (i : Z) : World :=
  if decide (i = 1) then rejecting else accepting.

(** Three counter samples of one digest with another observation among
    them. *)
Definition mixed_samples : list Metric :=
  [counter_sample; unknown_sample; counter_sample; counter_sample].

(** A worker as [NewWorker] makes it. *)
Definition fresh_worker : Worker := NewWorker 0 [] false 0 0.

(** The interleaved run of above, stopped after three steps. *)
Definition interleaved_mid : Config :=
  default (init one_counter two_samples)
    (exec 0 (init one_counter two_samples) (take 3 interleaved)).

End MoreExamples.

(** * Properties *)

(** ** Arithmetic of the chunking *)

Lemma wrap64_id z : int_min ≤ z ≤ int_max → wrap64 z = z.
Proof.
  unfold wrap64, int_min, int_max. intros Hz.
  rewrite Z.mod_small by lia. lia.
Qed.

Lemma ceil_div_alt a b : 0 < b → ceil_div a b = (a - 1) `div` b + 1.
Proof.
  intros Hb. unfold ceil_div.
  replace (a + b - 1) with (a - 1 + 1 * b) by lia.
  by rewrite Z.div_add by lia.
Qed.

(** [ceil_div a b] is the least [q] with [a ≤ q * b]. *)
Lemma ceil_div_spec a b :
  0 < b → (ceil_div a b - 1) * b < a ≤ ceil_div a b * b.
Proof.
  intros Hb. rewrite ceil_div_alt by done.
  pose proof (Z.mul_div_le (a - 1) b Hb).
  pose proof (Z.mul_succ_div_gt (a - 1) b Hb). lia.
Qed.

(** The two roundings of [Server.Flush], without the wrap-around. *)
Lemma chunk_arith n L :
  1 ≤ n → 1 ≤ L →
  let W := ceil_div n L in
  let c := ceil_div n W in
  1 ≤ W ≤ n ∧ 1 ≤ c ≤ n ∧ c ≤ L ∧ (W - 1) * c < n ≤ W * c.
Proof.
  intros Hn HL W c.
  pose proof (ceil_div_spec n L ltac:(lia)) as HW. fold W in HW.
  assert (1 ≤ W) as HW1 by nia.
  assert (W ≤ n) as HWn by nia.
  pose proof (ceil_div_spec n W ltac:(lia)) as Hc. fold c in Hc.
  assert (1 ≤ c) by nia.
  assert (c ≤ L) by nia.
  assert (c ≤ n) by nia.
  repeat split; try lia. nia.
Qed.

Section Chunking.
Context `{Samplers}.
Local Abbreviation DDM := (DDMetric DDFields).

(** The chunk list the loop builds, written without the bounds checks. *)
Local Abbreviation nth_chunk fm W c :=
  (λ i : Z, if decide (i < W - 1)
            then take (Z.to_nat c) (drop (Z.to_nat (i * c)) fm)
            else drop (Z.to_nat (i * c)) fm).

Lemma chunk_at_Some (fm : list DDM) W c i :
  len fm ≤ int_max → 1 ≤ W → 1 ≤ c → (W - 1) * c < len fm →
  0 ≤ i < W →
  chunk_at fm W c i = Some (nth_chunk fm W c i).
Proof.
  intros Hmax HW Hc Hlast Hi. unfold chunk_at, int_mul, int_sub.
  unfold int_max in Hmax.
  assert (i * c ≤ (W - 1) * c) by (apply Z.mul_le_mono_nonneg_r; lia).
  assert (0 ≤ i * c) by (apply Z.mul_nonneg_nonneg; lia).
  assert ((W - 1) * 1 ≤ (W - 1) * c) by (apply Z.mul_le_mono_nonneg_l; lia).
  rewrite !wrap64_id by (unfold int_min, int_max; lia).
  unfold slice_from. rewrite decide_True by lia. simpl.
  destruct (decide (i < W - 1)) as [Hlt|]; [|done].
  unfold slice_to. rewrite decide_True; [done|].
  assert ((i + 1) * c ≤ (W - 1) * c) by (apply Z.mul_le_mono_nonneg_r; lia).
  unfold len in *. rewrite length_drop. lia.
Qed.

Lemma concat_full_chunks (fm : list DDM) (c : Z) (k : nat) :
  0 ≤ c →
  concat ((λ i : Z, take (Z.to_nat c) (drop (Z.to_nat (i * c)) fm))
            <$> seqZ 0 (Z.of_nat k))
  = take (Z.to_nat (Z.of_nat k * c)) fm.
Proof.
  intros Hc. induction k as [|k IH].
  - by rewrite seqZ_nil by lia.
  - rewrite seqZ_S, fmap_app, concat_app, IH. simpl.
    rewrite app_nil_r, take_take_drop. f_equal. lia.
Qed.

Lemma concat_chunks (fm : list DDM) W c :
  1 ≤ W → 0 ≤ c →
  concat (nth_chunk fm W c <$> seqZ 0 W) = fm.
Proof.
  intros HW Hc.
  replace (seqZ 0 W) with (seqZ 0 (Z.of_nat (S (Z.to_nat (W - 1)))))
    by (f_equal; lia).
  rewrite seqZ_S, fmap_app, concat_app. simpl.
  rewrite decide_False by lia.
  rewrite (list_fmap_ext _
    (λ i : Z, take (Z.to_nat c) (drop (Z.to_nat (i * c)) fm))).
  2:{ intros j i [-> Hj]%lookup_seqZ. rewrite decide_True; [done|lia]. }
  rewrite concat_full_chunks by done.
  rewrite app_nil_r.
  replace (Z.to_nat ((0 + Z.of_nat (Z.to_nat (W - 1))) * c))
    with (Z.to_nat (Z.of_nat (Z.to_nat (W - 1)) * c)) by (f_equal; lia).
  apply take_drop.
Qed.

(** What [chunks] computes when there is something to flush. *)
Lemma chunks_Some (fm : list DDM) L :
  1 ≤ len fm ≤ int_max → 1 ≤ L →
  let W := ceil_div (len fm) L in
  let c := ceil_div (len fm) W in
  chunks fm (len fm) L = Some (W, c, nth_chunk fm W c <$> seqZ 0 W).
Proof.
  intros Hn HL W c.
  destruct (chunk_arith (len fm) L) as (HW & Hc & HcL & Hlast); [lia..|].
  fold W in HW, Hc, HcL, Hlast. fold c in Hc, HcL, Hlast.
  unfold int_max in Hn.
  unfold chunks, int_quo, int_sub, int_add.
  rewrite (wrap64_id (len fm - 1)) by (unfold int_min, int_max; lia).
  rewrite decide_False by lia. simpl.
  rewrite Z.quot_div_nonneg by lia.
  assert ((len fm - 1) `div` L + 1 = W) as HWeq
    by (unfold W; by rewrite ceil_div_alt by lia).
  assert (0 ≤ (len fm - 1) `div` L) by (apply Z.div_pos; lia).
  rewrite (wrap64_id ((len fm - 1) `div` L)) by (unfold int_min, int_max; lia).
  rewrite HWeq.
  rewrite (wrap64_id W) by (unfold int_min, int_max; lia).
  rewrite decide_False by lia. simpl.
  rewrite Z.quot_div_nonneg by lia.
  assert ((len fm - 1) `div` W + 1 = c) as Hceq
    by (unfold c; by rewrite ceil_div_alt by lia).
  assert (0 ≤ (len fm - 1) `div` W) by (apply Z.div_pos; lia).
  rewrite (wrap64_id ((len fm - 1) `div` W)) by (unfold int_min, int_max; lia).
  rewrite Hceq.
  rewrite (wrap64_id c) by (unfold int_min, int_max; lia).
  erewrite (proj2 (mapM_Some _ _ _)); [done|].
  apply Forall2_fmap_r, Forall_Forall2_diag, Forall_seqZ.
  intros i Hi. apply chunk_at_Some; unfold int_max; lia.
Qed.

End Chunking.

Section FlushCycle.
Context `{Samplers}.
Local Abbreviation DDM := (DDMetric DDFields).
Local Abbreviation nth_chunk fm W c :=
  (λ i : Z, if decide (i < W - 1)
            then take (Z.to_nat c) (drop (Z.to_nat (i * c)) fm)
            else drop (Z.to_nat (i * c)) fm).

Lemma len_app {A} (l k : list A) : len (l ++ k) = len l + len k.
Proof. unfold len. rewrite length_app. lia. Qed.

Lemma len_nonneg {A} (l : list A) : 0 ≤ len l.
Proof. unfold len. lia. Qed.

(** [totalCount] is the number of records, as long as that fits an [int]. *)
Lemma flush_workers_total ws i interval acc ws' outs tc t :
  flush_workers ws i interval acc = (ws', outs, tc, t) →
  0 ≤ acc → acc + len (concat outs) ≤ int_max →
  tc = acc + len (concat outs).
Proof.
  revert i acc ws' outs tc t.
  induction ws as [|w ws IH]; intros i acc ws' outs tc t; cbn [flush_workers].
  - intros ? _ _. simplify_eq. unfold len. simpl. lia.
  - destruct (Worker_Flush w interval) as [[w' tmp] t1].
    destruct (flush_workers ws (i + 1) interval (int_add acc (len tmp)))
      as [[[ws'' outs''] tc''] t''] eqn:E.
    intros ? Hacc Hmax. simplify_eq.
    change (concat (tmp :: outs'')) with (tmp ++ concat outs'') in Hmax |- *.
    rewrite len_app in Hmax.
    pose proof (len_nonneg tmp). pose proof (len_nonneg (concat outs'')).
    unfold int_add in E.
    rewrite wrap64_id in E by (unfold int_min, int_max in *; lia).
    apply IH in E; [|lia..]. rewrite len_app. lia.
Qed.

Lemma concat_replicate_nil {A} n (l : list (list A)) :
  concat (replicate n [] ++ l) = concat l.
Proof. induction n; simpl; auto. Qed.

Lemma len_collect s (outs : list (list DDM)) :
  len (collect s outs) = len (concat outs).
Proof.
  unfold collect, len. by rewrite length_fmap, concat_replicate_nil.
Qed.

Lemma fst_imap_pair {A B} (g : nat → A → B) (l : list A) :
  (imap (λ i x, (x, g i x)) l).*1 = l.
Proof.
  revert g. induction l as [|x l IH]; intros g; [done|].
  rewrite imap_cons. simpl. f_equal. apply (IH (g ∘ S)).
Qed.

(** A flush cycle with something to flush does not panic, and hands these
    chunks to [flushPart]. *)
Lemma Server_Flush_parts s interval L world :
  let fm := finalMetrics_of s interval in
  1 ≤ len fm ≤ int_max → 1 ≤ L →
  let W := ceil_div (len fm) L in
  let c := ceil_div (len fm) W in
  ∃ r, Server_Flush s interval L world = Some r ∧
       (fr_parts r).*1 = nth_chunk fm W c <$> seqZ 0 W.
Proof.
  intros fm Hn HL W c. unfold Server_Flush.
  subst fm W c. unfold finalMetrics_of in *.
  destruct (flush_workers (s_Workers s) 0 interval 0)
    as [[[ws' outs] tc] t0] eqn:E. simpl in *.
  rewrite len_collect in Hn.
  apply flush_workers_total in E; [|lia..].
  rewrite Z.add_0_l in E. subst tc.
  rewrite decide_False by lia.
  rewrite <-(len_collect s).
  rewrite <-(len_collect s) in Hn.
  rewrite chunks_Some by done. simpl.
  eexists; split; [done|]. simpl. apply fst_imap_pair.
Qed.

Lemma len_nth_chunk (fm : list DDM) W c i :
  1 ≤ W → 1 ≤ c → (W - 1) * c < len fm ≤ W * c → 0 ≤ i < W →
  len (nth_chunk fm W c i)
  = if decide (i < W - 1) then c else len fm - (W - 1) * c.
Proof.
  intros HW Hc Hn Hi. unfold len in *.
  assert (0 ≤ i * c) by (apply Z.mul_nonneg_nonneg; lia).
  destruct (decide (i < W - 1)).
  - assert ((i + 1) * c ≤ (W - 1) * c) by (apply Z.mul_le_mono_nonneg_r; lia).
    rewrite length_take, length_drop. lia.
  - assert (i = W - 1) as -> by lia. rewrite length_drop. lia.
Qed.

(** C1.  A flush cycle of [totalCount ≥ 1] records with
    [metricLimit = L ≥ 1] does not panic and hands [flushPart] exactly
    [W = ceil(totalCount / L)] chunks; every chunk has at most
    [ceil(totalCount / W)] records, hence at most [L]; and the chunks,
    concatenated, are the combined record sequence: every record is in
    exactly one chunk. *)
Theorem Server_Flush_chunking s interval L world :
  1 ≤ len (finalMetrics_of s interval) ≤ int_max → 1 ≤ L →
  ∃ r, Server_Flush s interval L world = Some r ∧
    let fm := finalMetrics_of s interval in
    let cs := (fr_parts r).*1 in
    let W := ceil_div (len fm) L in
    len cs = W ∧
    Forall (λ chunk, len chunk ≤ ceil_div (len fm) W) cs ∧
    Forall (λ chunk, len chunk ≤ L) cs ∧
    concat cs = fm.
Proof.
  intros Hn HL.
  destruct (Server_Flush_parts s interval L world Hn HL) as (r & Hr & Hcs).
  exists r. split; [done|]. simpl. rewrite Hcs.
  destruct (chunk_arith (len (finalMetrics_of s interval)) L)
    as (HW & Hc & HcL & Hlast); [lia..|].
  set (fm := finalMetrics_of s interval) in *.
  set (W := ceil_div (len fm) L) in *.
  set (c := ceil_div (len fm) W) in *.
  assert (Forall (λ chunk : list DDM, len chunk ≤ c)
            (nth_chunk fm W c <$> seqZ 0 W)) as Hsize.
  { apply Forall_fmap, Forall_seqZ. intros i Hi. unfold compose.
    rewrite len_nth_chunk by lia. case_decide; lia. }
  split_and!.
  - unfold len. rewrite length_fmap, length_seqZ. lia.
  - done.
  - eapply Forall_impl; [exact Hsize|]. simpl. intros; lia.
  - apply concat_chunks; lia.
Qed.

(** C9.  With [totalCount ≥ 1] and [metricLimit ≥ 1] the chunking
    arithmetic does not panic: both divisors are at least 1, the bounds
    [i*chunkSize] and [i*chunkSize + chunkSize] of every chunk but the last
    lie within the record sequence, and the last chunk, which starts at
    [(workers-1)*chunkSize], is not empty. *)
Theorem chunks_safe (fm : list DDM) L :
  1 ≤ len fm ≤ int_max → 1 ≤ L →
  ∃ workers chunkSize cs final,
    chunks fm (len fm) L = Some (workers, chunkSize, cs) ∧
    1 ≤ workers ∧ 1 ≤ chunkSize ∧
    (∀ i, 0 ≤ i < workers - 1 →
       0 ≤ i * chunkSize ∧ i * chunkSize + chunkSize ≤ len fm) ∧
    (workers - 1) * chunkSize < len fm ∧
    last cs = Some final ∧ final ≠ [].
Proof.
  intros Hn HL.
  destruct (chunk_arith (len fm) L) as (HW & Hc & HcL & Hlast); [lia..|].
  set (W := ceil_div (len fm) L) in *.
  set (c := ceil_div (len fm) W) in *.
  exists W, c, (nth_chunk fm W c <$> seqZ 0 W), (drop (Z.to_nat ((W - 1) * c)) fm).
  split_and!; try lia.
  - by apply chunks_Some.
  - intros i Hi.
    assert ((i + 1) * c ≤ (W - 1) * c) by (apply Z.mul_le_mono_nonneg_r; lia).
    assert (0 ≤ i * c) by (apply Z.mul_nonneg_nonneg; lia). lia.
  - replace (seqZ 0 W) with (seqZ 0 (Z.of_nat (S (Z.to_nat (W - 1)))))
      by (f_equal; lia).
    rewrite seqZ_S, fmap_app. cbn [fmap list_fmap]. rewrite last_snoc.
    rewrite decide_False by lia.
    by replace (0 + Z.of_nat (Z.to_nat (W - 1))) with (W - 1) by lia.
  - intros Hnil. apply (f_equal length) in Hnil.
    rewrite length_drop in Hnil. unfold len in *. simpl in Hnil. lia.
Qed.

(** C2, as the code has it.  A flush cycle of exactly 250 records with
    [metricLimit = 100] hands out 3 chunks of 84, 84 and 82 records: every
    chunk but the last has [ceil(250/3) = 84] records and the last one
    takes the rest.  Together they are the 250 records, each once. *)
Theorem Server_Flush_250 s interval world :
  len (finalMetrics_of s interval) = 250 →
  ∃ r c1 c2 c3,
    Server_Flush s interval 100 world = Some r ∧
    (fr_parts r).*1 = [c1; c2; c3] ∧
    len c1 = 84 ∧ len c2 = 84 ∧ len c3 = 82 ∧
    c1 ++ c2 ++ c3 = finalMetrics_of s interval.
Proof.
  intros Hlen.
  assert (1 ≤ len (finalMetrics_of s interval) ≤ int_max) as Hn
    by (rewrite Hlen; unfold int_max; lia).
  destruct (Server_Flush_parts s interval 100 world Hn ltac:(lia))
    as (r & Hr & Hcs).
  rewrite Hlen in Hcs.
  change (ceil_div 250 100) with 3 in Hcs.
  change (ceil_div 250 3) with 84 in Hcs.
  change (seqZ 0 3) with [0; 1; 2] in Hcs.
  set (fm := finalMetrics_of s interval) in *.
  exists r, (take 84 fm), (take 84 (drop 84 fm)), (drop 168 fm).
  unfold len in *.
  split_and!; [done|exact Hcs|..].
  - rewrite length_take. lia.
  - rewrite length_take, length_drop. lia.
  - rewrite length_drop. lia.
  - replace (drop 168 fm) with (drop 84 (drop 84 fm))
      by (rewrite drop_drop; reflexivity).
    rewrite take_drop. apply take_drop.
Qed.

End FlushCycle.

(** ** The worker *)

Section WorkerProps.
Context `{Samplers}.
Local Abbreviation DDM := (DDMetric DDFields).

Lemma unknown_kind_sample w m :
  m_Type m ∉ known_kinds →
  sample_metric w m =
    (w, [ELog Error [("type", FStr (m_Type m))] "Unknown metric type"], Returns).
Proof.
  unfold known_kinds. rewrite !not_elem_of_cons. intros (?&?&?&?&?&_).
  unfold sample_metric. by rewrite !decide_False by done.
Qed.

(** C3, as the code has it.  An observation of an unknown kind is logged
    at level [Error] and dropped: the call returns, the five maps are
    what they were, and the counter of processed observations is one
    higher (it is incremented before the kind is looked at). *)
Theorem ProcessMetric_unknown_kind w m :
  m_Type m ∉ known_kinds →
  Worker_ProcessMetric w m =
    (count_metric w,
     [ELock; ELog Error [("type", FStr (m_Type m))] "Unknown metric type";
      EUnlock],
     Returns) ∧
  maps_of (count_metric w) = maps_of w ∧
  w_metrics (count_metric w) = int_add (w_metrics w) 1.
Proof.
  intros Hm. unfold Worker_ProcessMetric.
  by rewrite unknown_kind_sample.
Qed.

(** C10.  [ProcessMetric] does not check that the value fits the kind: it
    panics exactly when the kind is counter, gauge, histogram or timer and
    the value is not a [float64], or the kind is set and the value is not
    a [string]; and then no diagnostic is logged. *)
Theorem ProcessMetric_type_assertion w m :
  let '(_, tr, c) := Worker_ProcessMetric w m in
  c = (if value_matches_kind m then Returns else Panics) ∧
  (if value_matches_kind m then True
   else Forall (λ e, is_error e = false) tr).
Proof.
  unfold Worker_ProcessMetric, sample_metric, value_matches_kind.
  set (w' := count_metric w). clearbody w'.
  assert (∀ present name msg,
            Forall (λ e, is_error e = false)
              ([ELock] ++ log_new present name msg ++ [EUnlock])) as Hlog
    by (intros [] ??; repeat constructor).
  destruct (decide (m_Type m = "counter")) as [E|N1].
  { rewrite decide_True by (rewrite E; set_solver).
    destruct (m_Value m); simpl; auto; split; auto; apply Hlog. }
  destruct (decide (m_Type m = "gauge")) as [E|N2].
  { rewrite decide_True by (rewrite E; set_solver).
    destruct (m_Value m); simpl; auto; split; auto; apply Hlog. }
  destruct (decide (m_Type m = "histogram")) as [E|N3].
  { rewrite decide_True by (rewrite E; set_solver).
    destruct (m_Value m); simpl; auto; split; auto; apply Hlog. }
  destruct (decide (m_Type m = "set")) as [E|N4].
  { rewrite decide_False
      by (rewrite E, !elem_of_cons, elem_of_nil;
          intros [?|[?|[?|[?|[]]]]]; discriminate).
    destruct (m_Value m); simpl; auto; split; auto; apply Hlog. }
  destruct (decide (m_Type m = "timer")) as [E|N5].
  { rewrite decide_True by (rewrite E; set_solver).
    destruct (m_Value m); simpl; auto; split; auto; apply Hlog. }
  rewrite decide_False
    by (rewrite !elem_of_cons, elem_of_nil; intros [?|[?|[?|[?|[]]]]]; done).
  done.
Qed.

Lemma Worker_Flush_eq w interval :
  Worker_Flush w interval =
    (reset_maps w, (flush_emit (maps_of w) interval).1,
     [ELock] ++ (take_maps w).2 ++ [EUnlock]
     ++ (flush_emit (maps_of w) interval).2).
Proof.
  unfold Worker_Flush, maps_of, take_maps. cbn [fst snd].
  by destruct (flush_emit _ _).
Qed.

Lemma elem_of_range_flush {S} kind (flush : S → list DDM) (m : gmap Z S) r :
  r ∈ (range_flush kind flush m).1 ↔ ∃ d v, m !! d = Some v ∧ r ∈ flush v.
Proof.
  unfold range_flush. simpl. rewrite list_elem_of_In, in_flat_map. split.
  - intros ([d v] & Hin%list_elem_of_In%elem_of_map_to_list & Hr).
    exists d, v. by rewrite list_elem_of_In.
  - intros (d & v & Hm & Hr). exists (d, v). split.
    + by apply list_elem_of_In, elem_of_map_to_list.
    + by apply list_elem_of_In.
Qed.

Lemma range_flush_empty {S} kind (flush : S → list DDM) :
  range_flush kind flush (∅ : gmap Z S) = ([], []).
Proof. unfold range_flush. by rewrite map_to_list_empty. Qed.

Lemma flush_emit_output snap interval :
  (flush_emit snap interval).1 =
    (range_flush "counter" (λ v, Counter_Flush v interval) (sn_counters snap)).1
    ++ (range_flush "gauge" Gauge_Flush (sn_gauges snap)).1
    ++ (range_flush "histogram" (λ v, Histo_Flush v interval) (sn_histograms snap)).1
    ++ (range_flush "set" Set_Flush (sn_sets snap)).1
    ++ (range_flush "timer" (λ v, Histo_Flush v interval) (sn_timers snap)).1.
Proof. reflexivity. Qed.

Lemma flush_emit_empty interval :
  (flush_emit empty_maps interval).1 = [].
Proof.
  rewrite flush_emit_output. unfold empty_maps.
  cbn [sn_counters sn_gauges sn_histograms sn_sets sn_timers].
  by rewrite !range_flush_empty.
Qed.

(** C4.  Two [Flush] calls in a row, with no [ProcessMetric] in between:
    the first returns the records of the samplers accumulated so far and
    leaves five empty maps and a zero counter; the second returns no
    record at all. *)
Theorem Flush_twice w i1 i2 :
  let '(w1, out1, _) := Worker_Flush w i1 in
  let '(_, out2, _) := Worker_Flush w1 i2 in
  (∀ r, r ∈ out1 ↔ accumulated w i1 r) ∧
  maps_of w1 = empty_maps ∧ w_metrics w1 = 0 ∧
  out2 = [].
Proof.
  rewrite !Worker_Flush_eq.
  change (maps_of (reset_maps w)) with empty_maps.
  rewrite flush_emit_empty, flush_emit_output.
  split_and!; [|done..].
  intros r. unfold accumulated, maps_of, take_maps.
  cbn [fst sn_counters sn_gauges sn_histograms sn_sets sn_timers].
  by rewrite !elem_of_app, !elem_of_range_flush.
Qed.

Lemma while_locked_free tr :
  ELock ∉ tr → while_locked false tr = [].
Proof.
  induction tr as [|e tr IH]; [done|].
  rewrite not_elem_of_cons. intros [He Htr].
  destruct e; simpl; auto. done.
Qed.

Lemma range_flush_no_lock {S} kind (flush : S → list DDM) (m : gmap Z S) :
  ELock ∉ (range_flush kind flush m).2.
Proof.
  unfold range_flush. simpl. by intros (x & ? & _)%list_elem_of_fmap.
Qed.

Lemma flush_emit_trace snap interval :
  (flush_emit snap interval).2 =
    [ETiming "flush.worker_duration_ns" [] Rate_1_0]
    ++ [ECount "worker.metrics_flushed_total" (Z.of_nat (size (sn_counters snap)))
          ["metric_type:counter"] Rate_1_0]
    ++ (range_flush "counter" (λ v, Counter_Flush v interval) (sn_counters snap)).2
    ++ [ECount "worker.metrics_flushed_total" (Z.of_nat (size (sn_gauges snap)))
          ["metric_type:gauge"] Rate_1_0]
    ++ (range_flush "gauge" Gauge_Flush (sn_gauges snap)).2
    ++ [ECount "worker.metrics_flushed_total" (Z.of_nat (size (sn_histograms snap)))
          ["metric_type:histogram"] Rate_1_0]
    ++ (range_flush "histogram" (λ v, Histo_Flush v interval) (sn_histograms snap)).2
    ++ [ECount "worker.metrics_flushed_total" (Z.of_nat (size (sn_sets snap)))
          ["metric_type:set"] Rate_1_0]
    ++ (range_flush "set" Set_Flush (sn_sets snap)).2
    ++ [ECount "worker.metrics_flushed_total" (Z.of_nat (size (sn_timers snap)))
          ["metric_type:timer"] Rate_1_0]
    ++ (range_flush "timer" (λ v, Histo_Flush v interval) (sn_timers snap)).2.
Proof. reflexivity. Qed.

Lemma flush_emit_no_lock snap interval :
  ELock ∉ (flush_emit snap interval).2.
Proof.
  rewrite flush_emit_trace.
  repeat first
    [ apply range_flush_no_lock
    | apply not_elem_of_nil
    | apply not_elem_of_cons; split; [discriminate|]
    | apply not_elem_of_app; split ].
Qed.

(** C5, as the code has it.  [Flush] holds the mutex while it takes the
    five maps, emits the [worker.metrics_processed_total] count, installs
    the fresh maps and resets the counter, and for nothing else: the
    trace is [Lock], that one statsd count, [Unlock], and then, with the
    mutex released for good, the timing, the per-kind counts and every
    sampler's flush. *)
Theorem Flush_lock_scope w interval :
  let tr := (Worker_Flush w interval).2 in
  let processed :=
    ECount "worker.metrics_processed_total" (w_metrics w)
      ["worker:" +:+ pretty (w_id w)] Rate_1_0 in
  let rest := (flush_emit (maps_of w) interval).2 in
  tr = [ELock; processed; EUnlock] ++ rest ∧
  (ELock ∉ rest) ∧
  while_locked false tr = [processed] ∧
  filter (λ e, is_sampler_flush e = true) tr
  = filter (λ e, is_sampler_flush e = true) rest.
Proof.
  intros tr processed rest. subst tr rest.
  rewrite Worker_Flush_eq. cbn [snd].
  pose proof (flush_emit_no_lock (maps_of w) interval) as Hfree.
  split_and!; [done|done| |done].
  cbn [take_maps snd app while_locked]. by rewrite while_locked_free.
Qed.

End WorkerProps.

(** ** The server *)

(** A decimal numeral starts with a digit or a minus sign. *)
Lemma pretty_N_go_head (c : ascii) x s s' :
  (∀ d, pretty_N_char d ≠ c) →
  s ≠ String c s' → pretty_N_go x s ≠ String c s'.
Proof.
  intros Hc. revert s.
  induction (N.lt_wf_0 x) as [x _ IH]; intros s Hs.
  destruct (decide (x = 0)%N) as [->|Hx].
  - by rewrite pretty_N_go_0.
  - rewrite pretty_N_go_step by lia.
    apply IH; [apply N.div_lt; lia|].
    intros [= Hd _]. by apply Hc in Hd.
Qed.

Lemma pretty_Z_head (c : ascii) (z : Z) s' :
  (∀ d, pretty_N_char d ≠ c) → c ≠ "-"%char →
  pretty z ≠ String c s'.
Proof.
  intros Hc Hdash. unfold pretty, pretty_Z. destruct z as [|p|p].
  - intros [= Hd _]. by apply (Hc 0%N).
  - unfold pretty, pretty_positive, pretty, pretty_N.
    rewrite decide_False by done. by apply pretty_N_go_head.
  - simpl. by intros [= ? _].
Qed.

(** The tag of a rejected status is none of the three fixed tags. *)
Lemma status_tag_fresh (code : Z) :
  "cause:" +:+ pretty code ∉ ["cause:json"; "cause:construct"; "cause:io"].
Proof.
  assert (∀ c : ascii, c ∈ ["j"; "c"; "i"]%char →
            ∀ d, pretty_N_char d ≠ c) as Hdigit.
  { intros c Hin d. unfold pretty_N_char.
    rewrite !elem_of_cons, elem_of_nil in Hin.
    destruct Hin as [->|[->|[->|[]]]]; by repeat case_match. }
  rewrite !not_elem_of_cons. split_and!; [..|apply not_elem_of_nil];
    simpl; intros [= Heq]; revert Heq; apply pretty_Z_head;
    try done; apply Hdigit; set_solver.
Qed.

Section ServerProps.
Context `{Samplers}.
Local Abbreviation DDM := (DDMetric DDFields).

(** An event that records no error and sends no request. *)
Local Abbreviation quiet :=
  (λ e : Event, is_error e = false ∧ is_http_do e = false).

Lemma range_flush_quiet {S} kind (flush : S → list DDM) (m : gmap Z S) :
  Forall quiet (range_flush kind flush m).2.
Proof. unfold range_flush. simpl. by apply Forall_fmap, Forall_true. Qed.

Lemma Worker_Flush_quiet w interval :
  Forall quiet (Worker_Flush w interval).2.
Proof.
  rewrite Worker_Flush_eq. cbn [snd take_maps]. rewrite flush_emit_trace.
  repeat first
    [ apply range_flush_quiet
    | apply Forall_nil_2
    | apply Forall_app_2
    | apply Forall_cons_2;
        [split; [first [reflexivity
                       |apply bool_decide_eq_false; by intros [? _]]
                |reflexivity]|] ].
Qed.

Lemma flush_workers_quiet ws i interval acc :
  Forall quiet (flush_workers ws i interval acc).2.
Proof.
  revert i acc. induction ws as [|w ws IH]; intros i acc; cbn [flush_workers].
  - constructor.
  - pose proof (Worker_Flush_quiet w interval) as Hw.
    destruct (Worker_Flush w interval) as [[w' tmp] t].
    specialize (IH (i + 1) (int_add acc (len tmp))).
    destruct (flush_workers ws (i + 1) interval (int_add acc (len tmp)))
      as [[[ws' outs] tc] t'].
    cbn [snd] in *. apply Forall_cons_2; [done|]. by apply Forall_app_2.
Qed.

(** C6.  When the combined record sequence of a cycle is empty,
    [Server.Flush] returns without chunking anything (whatever the
    [metricLimit], even zero) and without starting a [flushPart]; its
    last act is the [Info] line "Nothing to flush, skipping."; no event
    of the cycle is an error record or a request. *)
Theorem Server_Flush_empty s interval L world :
  finalMetrics_of s interval = [] →
  ∃ r, Server_Flush s interval L world = Some r ∧
    fr_parts r = [] ∧
    last (fr_trace r) = Some (ELog Info [] "Nothing to flush, skipping.") ∧
    Forall (λ e, is_error e = false) (fr_trace r) ∧
    Forall (λ e, is_http_do e = false) (fr_trace r).
Proof.
  unfold finalMetrics_of, Server_Flush. intros Hempty.
  pose proof (flush_workers_quiet (s_Workers s) 0 interval 0) as Hq.
  destruct (flush_workers (s_Workers s) 0 interval 0)
    as [[[ws' outs] tc] t0] eqn:E.
  cbn [fst snd] in *.
  apply (f_equal len) in Hempty. rewrite len_collect in Hempty.
  apply flush_workers_total in E;
    [|lia|rewrite Hempty; unfold len, int_max; simpl; lia].
  rewrite Hempty in E. change (len []) with 0 in E. subst tc.
  rewrite decide_True by done.
  eexists. split; [done|]. cbn [fr_parts fr_trace]. split_and!.
  - done.
  - apply last_snoc.
  - rewrite !Forall_app. split_and!.
    + eapply Forall_impl; [exact Hq|]. by intros e [? _].
    + repeat constructor.
    + repeat constructor.
  - rewrite !Forall_app. split_and!.
    + eapply Forall_impl; [exact Hq|]. by intros e [_ ?].
    + repeat constructor.
    + repeat constructor.
Qed.

(** C7.  One [flushPart] call sends at most one request and never tries
    again.  A serialization error, a request construction error, a
    transport error and a response with a status other than 202 each
    count the whole chunk once on [flush.error_total], under the tag
    [cause:json], [cause:construct], [cause:io] and [cause:<status>];
    the four tags differ.  Nothing is counted exactly when a response
    came back with status 202, whether or not its body could be read. *)
Theorem flushPart_outcomes s env (chunk : list DDM) :
  let tr := Server_flushPart s env chunk in
  (attempts tr ≤ 1)%nat ∧
  match outcome_of s env chunk with
  | SerializationError =>
      failures tr = [(len chunk, ["cause:json"])] ∧ attempts tr = 0%nat
  | ConstructionError =>
      failures tr = [(len chunk, ["cause:construct"])] ∧ attempts tr = 0%nat
  | TransportError =>
      failures tr = [(len chunk, ["cause:io"])] ∧ attempts tr = 1%nat
  | Responded resp =>
      attempts tr = 1%nat ∧
      failures tr =
        if decide (rs_StatusCode resp = 202) then []
        else [(len chunk, ["cause:" +:+ pretty (rs_StatusCode resp)])]
  end ∧
  (failures tr = [] ↔
     ∃ resp, outcome_of s env chunk = Responded resp ∧
             rs_StatusCode resp = 202) ∧
  (∀ code : Z,
     "cause:" +:+ pretty code ∉ ["cause:json"; "cause:construct"; "cause:io"]).
Proof.
  intros tr. subst tr. unfold Server_flushPart, outcome_of, StatusAccepted.
  destruct (json_zlib env chunk) as [reqBody|].
  2:{ split_and!; [vm_compute; lia|reflexivity|reflexivity| |apply status_tag_fresh].
      split; [done|]. by intros (? & ? & _). }
  destruct (http_NewRequest env _ _ reqBody) as [req|].
  2:{ split_and!; [vm_compute; lia|reflexivity|reflexivity| |apply status_tag_fresh].
      split; [done|]. by intros (? & ? & _). }
  destruct (http_Do env _) as [resp|].
  2:{ split_and!; [vm_compute; lia|reflexivity|reflexivity| |apply status_tag_fresh].
      split; [done|]. by intros (? & ? & _). }
  destruct (decide (rs_StatusCode resp ≠ 202)) as [Hne|Heq].
  - rewrite (decide_False (P := rs_StatusCode resp = 202)) by done.
    destruct (rs_ReadErr resp);
      (split_and!;
         [vm_compute; lia|reflexivity|reflexivity| |apply status_tag_fresh]);
      (split; [done|]); intros (? & [= <-] & ?); done.
  - apply dec_stable in Heq. rewrite decide_True by done.
    destruct (rs_ReadErr resp);
      (split_and!;
         [vm_compute; lia|reflexivity|reflexivity| |apply status_tag_fresh]);
      (split; [|done]); intros _; by exists resp.
Qed.

End ServerProps.

(** ** Concurrent calls on one worker *)

Section ConcurrencyProps.
Context `{Samplers}.
Local Abbreviation DDM := (DDMetric DDFields).

Lemma count_pc_app f l1 l2 :
  count_pc f (l1 ++ l2) = (count_pc f l1 + count_pc f l2)%nat.
Proof. unfold count_pc. by rewrite filter_app, length_app. Qed.

Lemma count_pc_cons f m pc l :
  count_pc f ((m, pc) :: l) = ((if f pc then 1 else 0) + count_pc f l)%nat.
Proof.
  unfold count_pc. rewrite filter_cons. simpl.
  destruct (f pc); by rewrite ?decide_True, ?decide_False by done.
Qed.

Lemma count_pc_middle f l1 m pc l2 :
  count_pc f (l1 ++ (m, pc) :: l2)
  = (count_pc f l1 + (if f pc then 1 else 0) + count_pc f l2)%nat.
Proof. rewrite count_pc_app, count_pc_cons. lia. Qed.

Lemma counted_le_critical l :
  (count_pc is_counted l ≤ count_pc in_critical_p l)%nat.
Proof.
  induction l as [|[m pc] l IH]; [done|].
  rewrite !count_pc_cons. destruct pc; simpl; lia.
Qed.

Lemma entered_middle l1 m pc l2 :
  (filter (λ p : Metric * ProcessPc, is_entered p.2 = true)
     (l1 ++ (m, pc) :: l2)).*1
  = (filter (λ p : Metric * ProcessPc, is_entered p.2 = true) l1).*1
    ++ (if is_entered pc then [m] else [])
    ++ (filter (λ p : Metric * ProcessPc, is_entered p.2 = true) l2).*1.
Proof.
  rewrite filter_app, filter_cons, fmap_app. simpl.
  destruct (is_entered pc); by rewrite ?decide_True, ?decide_False by done.
Qed.

Lemma entered_all l :
  Forall (λ p : Metric * ProcessPc, p.2 = P_done) l →
  (filter (λ p : Metric * ProcessPc, is_entered p.2 = true) l).*1 = l.*1 ∧
  count_pc is_counted l = 0%nat.
Proof.
  induction 1 as [|[m pc] l Hpc _ [IH1 IH2]]; [done|]. simpl in Hpc. subst pc.
  rewrite count_pc_cons, filter_cons, decide_True by done.
  by rewrite fmap_cons, IH1, IH2.
Qed.

(** The goroutine picked, and the rest of the pool around it. *)
Lemma pool_split (procs : list (Metric * ProcessPc)) i p :
  procs !! i = Some p →
  ∃ l1 l2, procs = l1 ++ p :: l2 ∧ ∀ q, <[i := q]> procs = l1 ++ q :: l2.
Proof.
  intros Hi. exists (take i procs), (drop (S i) procs). split.
  - by rewrite take_drop_middle.
  - intros q. apply insert_take_drop. by eapply lookup_lt_Some.
Qed.

Lemma replay_snoc w h a : replay w (h ++ [a]) = replay_action (replay w h) a.
Proof. unfold replay. by rewrite foldl_app. Qed.

Lemma replay_app w h1 h2 : replay w (h1 ++ h2) = replay (replay w h1) h2.
Proof. unfold replay. by rewrite foldl_app. Qed.

Lemma replay_process w ms : replay w (AProcess <$> ms) = run w ms.
Proof. revert w. induction ms as [|m ms IH]; intros w; [done|]. apply IH. Qed.

Lemma metrics_of_app h1 h2 :
  metrics_of (h1 ++ h2) = metrics_of h1 ++ metrics_of h2.
Proof. unfold metrics_of. by rewrite omap_app. Qed.

Lemma metrics_of_process ms : metrics_of (AProcess <$> ms) = ms.
Proof. induction ms as [|m ms IH]; [done|]. simpl. by f_equal. Qed.

Lemma ProcessMetric_state w m :
  (Worker_ProcessMetric w m).1.1 = (sample_metric (count_metric w) m).1.1.
Proof.
  unfold Worker_ProcessMetric.
  by destruct (sample_metric (count_metric w) m) as [[??]?].
Qed.

Lemma init_inv w0 ms interval : Reachable_inv w0 ms interval (init w0 ms).
Proof.
  assert (∀ l : list Metric,
            count_pc in_critical_p ((λ m, (m, P_start)) <$> l) = 0%nat ∧
            count_pc is_counted ((λ m, (m, P_start)) <$> l) = 0%nat ∧
            (filter (λ p : Metric * ProcessPc, is_entered p.2 = true)
               ((λ m, (m, P_start)) <$> l)) = []) as Hnone.
  { induction l as [|m l (IH1 & IH2 & IH3)]; [done|].
    rewrite fmap_cons, !count_pc_cons, filter_cons, decide_False by done.
    by rewrite IH1, IH2, IH3. }
  destruct (Hnone ms) as (H1 & H2 & H3).
  split; unfold init, holders; cbn [c_worker c_mutex c_flush c_procs c_hist].
  - rewrite H1. reflexivity.
  - rewrite H2. reflexivity.
  - rewrite <-list_fmap_compose. apply list_fmap_id.
  - rewrite H3. reflexivity.
  - by exists [].
Qed.

Local Ltac unfold_inv :=
  unfold holders; cbn [c_worker c_mutex c_flush c_procs c_hist
                       in_critical_f in_critical_p is_counted is_entered].

(** A step of the flush goroutine keeps the invariant. *)
Lemma flush_step_inv w0 ms interval c c' :
  Reachable_inv w0 ms interval c →
  step interval c RunFlush = Some c' →
  Reachable_inv w0 ms interval c'.
Proof.
  destruct c as [w mu fl procs hist]. intros [Hm Hw Hp Hh Hf].
  unfold holders in Hm. cbn [c_worker c_mutex c_flush c_procs c_hist] in *.
  pose proof (counted_le_critical procs) as Hle.
  cbn [step c_worker c_mutex c_flush c_procs c_hist].
  destruct fl as [| |snap|snap|snap|out]; cbn [in_critical_f flush_view] in *.
  - destruct mu; [done|]. intros [= <-]. split; unfold_inv; try done. lia.
  - intros [= <-]. split; unfold_inv; try done.
    destruct Hf as [before ->]. exists before. split; [done|].
    assert (count_pc is_counted procs = 0%nat) as Hc by (destruct mu; lia).
    rewrite Hc, replay_process in Hw. unfold Nat.iter in Hw. by subst w.
  - intros [= <-]. destruct Hf as (before & -> & ->).
    assert (count_pc is_counted procs = 0%nat) as Hc by (destruct mu; lia).
    rewrite Hc in Hw. unfold Nat.iter in Hw. cbn [nat_rect] in Hw.
    split; unfold_inv; try done.
    + rewrite Hc, replay_snoc, <-Hw. reflexivity.
    + by rewrite metrics_of_app, app_nil_r.
    + cbn [flush_view]. by exists before.
  - intros [= <-]. destruct Hf as (before & -> & ->).
    split; unfold_inv; try done.
    + destruct mu; lia.
    + cbn [flush_view]. by exists before, [].
  - intros [= <-]. destruct Hf as (before & after & -> & ->).
    split; unfold_inv; try done. cbn [flush_view]. by exists before, after.
  - done.
Qed.

(** A step of a [ProcessMetric] goroutine keeps the invariant. *)
Lemma process_step_inv w0 ms interval c i c' :
  Reachable_inv w0 ms interval c →
  step interval c (RunProcess i) = Some c' →
  Reachable_inv w0 ms interval c'.
Proof.
  destruct c as [w mu fl procs hist]. intros [Hm Hw Hp Hh Hf].
  unfold holders in Hm. cbn [c_worker c_mutex c_flush c_procs c_hist] in *.
  cbn [step c_worker c_mutex c_flush c_procs c_hist].
  destruct (procs !! i) as [[m pc]|] eqn:Hi; [|done]. cbn [mbind option_bind].
  destruct (pool_split procs i (m, pc) Hi) as (l1 & l2 & -> & Hins).
  pose proof (counted_le_critical l1) as Hle1.
  pose proof (counted_le_critical l2) as Hle2.
  rewrite count_pc_middle in Hm, Hw. rewrite entered_middle in Hh.
  rewrite fmap_app, fmap_cons in Hp.
  destruct pc; cbn [in_critical_p is_counted is_entered] in *.
  - (* [Lock] *)
    destruct mu; [done|]. intros [= <-]. rewrite Hins.
    split; unfold_inv;
      rewrite ?count_pc_middle, ?entered_middle, ?fmap_app, ?fmap_cons;
      unfold_inv; try done.
    destruct (in_critical_f fl); lia.
  - (* [w.metrics++] *)
    intros [= <-]. rewrite Hins.
    split; unfold_inv;
      rewrite ?count_pc_middle, ?entered_middle, ?fmap_app, ?fmap_cons;
      unfold_inv; try done.
    rewrite Hw. replace (count_pc is_counted l1 + 1 + count_pc is_counted l2)%nat
      with (S (count_pc is_counted l1 + 0 + count_pc is_counted l2)) by lia.
    reflexivity.
  - (* the [switch] *)
    destruct (sample_metric w m) as [[w' tr] []] eqn:Hs; [|done].
    intros [= <-]. rewrite Hins.
    assert (count_pc is_counted l1 = 0 ∧ count_pc is_counted l2 = 0
            ∧ in_critical_f fl = false)%nat as (Hc1 & Hc2 & Hfl)
      by (destruct mu, (in_critical_f fl); lia).
    rewrite Hc1, Hc2 in Hw. unfold Nat.iter in Hw. cbn [nat_rect Nat.add] in Hw.
    split; unfold_inv;
      rewrite ?count_pc_middle, ?entered_middle, ?fmap_app, ?fmap_cons;
      unfold_inv; try done.
    + rewrite Hc1, Hc2, replay_snoc. cbn [replay_action].
      rewrite ProcessMetric_state, <-Hw, Hs. reflexivity.
    + change ([] ++ ?l) with l in Hh. change ([m] ++ ?l) with (m :: l).
      rewrite metrics_of_app, Hh. change (metrics_of [AProcess m]) with [m].
      etrans; [|apply Permutation_middle].
      symmetry. apply Permutation_cons_append.
    + destruct fl as [| |snap|snap|snap|out]; try done; cbn [flush_view] in *.
      * destruct Hf as [before ->]. exists (before ++ [m]).
        by rewrite fmap_app.
      * destruct Hf as (before & after & -> & ->).
        exists before, (after ++ [m]).
        by rewrite fmap_app, <-app_assoc.
      * destruct Hf as (before & after & -> & ->).
        exists before, (after ++ [m]).
        by rewrite fmap_app, <-app_assoc.
  - (* [Unlock] *)
    intros [= <-]. rewrite Hins.
    split; unfold_inv;
      rewrite ?count_pc_middle, ?entered_middle, ?fmap_app, ?fmap_cons;
      unfold_inv; try done.
    destruct mu, (in_critical_f fl); lia.
  - done.
Qed.

Lemma exec_inv w0 ms interval sched c c' :
  Reachable_inv w0 ms interval c →
  exec interval c sched = Some c' →
  Reachable_inv w0 ms interval c'.
Proof.
  revert c. induction sched as [|ch sched IH]; intros c Hinv; cbn [exec].
  - by intros [= <-].
  - destruct (step interval c ch) as [c1|] eqn:Hstep; [|done].
    cbn [mbind option_bind]. apply IH.
    destruct ch; eauto using flush_step_inv, process_step_inv.
Qed.

(** C8.  Whatever the interleaving of the steps of concurrent
    [ProcessMetric] calls and of one [Flush] call, once all have returned
    the observations fall into those whose [switch] ran before the swap
    and those whose [switch] ran after it, each observation in exactly one
    of the two; the flush returned what a [Flush] returns after the first
    group was processed one by one, and the worker is left as after
    processing the second group one by one on the fresh maps, which is
    what the next [Flush] will report. *)
Theorem swap_boundary w0 ms interval sched c out :
  exec interval (init w0 ms) sched = Some c →
  c_flush c = F_done out →
  Forall (λ p, p.2 = P_done) (c_procs c) →
  ∃ before after,
    c_hist c = (AProcess <$> before) ++ ASwap :: (AProcess <$> after) ∧
    before ++ after ≡ₚ ms ∧
    out = (Worker_Flush (run w0 before) interval).1.2 ∧
    c_worker c = run (Worker_Flush (run w0 before) interval).1.1 after.
Proof.
  intros Hexec Hfl Hdone.
  destruct (exec_inv w0 ms interval sched _ c (init_inv w0 ms interval) Hexec)
    as [_ Hw Hp Hh Hf].
  rewrite Hfl in Hf. cbn [flush_view] in Hf.
  destruct Hf as (before & after & Hhist & ->).
  destruct (entered_all _ Hdone) as [Hall Hnone].
  rewrite Hall, Hp, Hhist in Hh. rewrite Hnone, Hhist in Hw.
  exists before, after. rewrite Worker_Flush_eq. cbn [fst snd].
  split_and!; [done| |done|].
  - rewrite <-Hh, metrics_of_app, metrics_of_process.
    by change (metrics_of (ASwap :: ?h)) with (metrics_of h);
      rewrite metrics_of_process.
  - rewrite Hw. unfold Nat.iter. cbn [nat_rect].
    rewrite replay_app, replay_process.
    change (replay ?w (ASwap :: ?h)) with (replay (reset_maps w) h).
    by rewrite replay_process.
Qed.

End ConcurrencyProps.

(** ** The scenarios, run *)

Section Scenarios.
Local Existing Instance int_samplers.

(** 250 gauges on one worker make a cycle of 250 records. *)
Lemma gauges_250_records :
  len (finalMetrics_of (server_of [gauges_worker 250]) 0) = 250.
Proof. vm_compute. reflexivity. Qed.

Lemma Server_Flush_chunking_witness :
  ∃ r, Server_Flush (server_of [gauges_worker 250]) 0 100 (λ _, accepting)
       = Some r ∧
    let fm := finalMetrics_of (server_of [gauges_worker 250]) 0 in
    let cs := (fr_parts r).*1 in
    let W := ceil_div (len fm) 100 in
    len cs = W ∧
    Forall (λ chunk, len chunk ≤ ceil_div (len fm) W) cs ∧
    Forall (λ chunk, len chunk ≤ 100) cs ∧
    concat cs = fm.
Proof.
  apply (Server_Flush_chunking (server_of [gauges_worker 250]) 0 100
           (λ _, accepting)).
  - rewrite gauges_250_records. unfold int_max. lia.
  - lia.
Defined.

Lemma chunks_safe_witness :
  ∃ workers chunkSize cs final,
    chunks (finalMetrics_of (server_of [gauges_worker 250]) 0)
      (len (finalMetrics_of (server_of [gauges_worker 250]) 0)) 100
    = Some (workers, chunkSize, cs) ∧
    1 ≤ workers ∧ 1 ≤ chunkSize ∧
    (∀ i, 0 ≤ i < workers - 1 →
       0 ≤ i * chunkSize ∧
       i * chunkSize + chunkSize
       ≤ len (finalMetrics_of (server_of [gauges_worker 250]) 0)) ∧
    (workers - 1) * chunkSize
    < len (finalMetrics_of (server_of [gauges_worker 250]) 0) ∧
    last cs = Some final ∧ final ≠ [].
Proof.
  apply (chunks_safe (finalMetrics_of (server_of [gauges_worker 250]) 0) 100).
  - rewrite gauges_250_records. unfold int_max. lia.
  - lia.
Defined.

Lemma Server_Flush_250_witness :
  ∃ r c1 c2 c3,
    Server_Flush (server_of [gauges_worker 250]) 0 100 (λ _, accepting)
    = Some r ∧
    (fr_parts r).*1 = [c1; c2; c3] ∧
    len c1 = 84 ∧ len c2 = 84 ∧ len c3 = 82 ∧
    c1 ++ c2 ++ c3 = finalMetrics_of (server_of [gauges_worker 250]) 0.
Proof.
  apply (Server_Flush_250 (server_of [gauges_worker 250]) 0 (λ _, accepting)).
  exact gauges_250_records.
Defined.

(** C2 as the specification words it fails: on 250 records with
    [metricLimit = 100] the chunk sizes are 84, 84 and 82, not 84, 83
    and 83. *)
Lemma scenario_D_sizes :
  len (finalMetrics_of (server_of [gauges_worker 250]) 0) = 250 ∧
  ∃ r, Server_Flush (server_of [gauges_worker 250]) 0 100 (λ _, accepting)
       = Some r ∧
       len <$> (fr_parts r).*1 = [84; 84; 82] ∧
       len <$> (fr_parts r).*1 ≠ [84; 83; 83].
Proof.
  split; [exact gauges_250_records|].
  eexists. split; [vm_compute; reflexivity|]. split.
  - vm_compute. reflexivity.
  - vm_compute. discriminate.
Qed.

Lemma unknown_sample_kind : m_Type unknown_sample ∉ known_kinds.
Proof.
  unfold known_kinds. rewrite !not_elem_of_cons.
  split_and!; [done..|apply not_elem_of_nil].
Qed.

Lemma ProcessMetric_unknown_kind_witness :
  Worker_ProcessMetric one_counter unknown_sample =
    (count_metric one_counter,
     [ELock;
      ELog Error [("type", FStr (m_Type unknown_sample))] "Unknown metric type";
      EUnlock],
     Returns) ∧
  maps_of (count_metric one_counter) = maps_of one_counter ∧
  w_metrics (count_metric one_counter) = int_add (w_metrics one_counter) 1.
Proof.
  apply (ProcessMetric_unknown_kind one_counter unknown_sample).
  exact unknown_sample_kind.
Defined.

(** C3 as the specification words it fails: an observation of unknown
    kind does change the worker, its counter goes from 1 to 2. *)
Lemma unknown_kind_counted :
  (m_Type unknown_sample ∉ known_kinds) ∧
  w_metrics one_counter = 1 ∧
  w_metrics (Worker_ProcessMetric one_counter unknown_sample).1.1 = 2 ∧
  (Worker_ProcessMetric one_counter unknown_sample).1.1 ≠ one_counter.
Proof.
  split; [exact unknown_sample_kind|].
  split; [reflexivity|]. split; [vm_compute; reflexivity|].
  intros Heq. apply (f_equal w_metrics) in Heq. vm_compute in Heq.
  discriminate.
Qed.

(** A counter observation that carries a string panics. *)
Example mistyped_sample_panics :
  (Worker_ProcessMetric one_counter mistyped_sample).2 = Panics.
Proof. vm_compute. reflexivity. Qed.

(** C5 as the specification words it fails: one statsd emission happens
    with the mutex held. *)
Lemma Flush_emits_under_lock :
  ∃ e, e ∈ while_locked false (Worker_Flush one_counter 0).2 ∧
       is_network e = true ∧
       e = ECount "worker.metrics_processed_total" 1 ["worker:0"] Rate_1_0.
Proof.
  eexists. split; [|split; [|reflexivity]].
  - vm_compute. apply list_elem_of_here.
  - reflexivity.
Qed.

Lemma Server_Flush_empty_witness :
  ∃ r, Server_Flush (server_of [gauges_worker 0]) 0 100 (λ _, accepting)
       = Some r ∧
    fr_parts r = [] ∧
    last (fr_trace r) = Some (ELog Info [] "Nothing to flush, skipping.") ∧
    Forall (λ e, is_error e = false) (fr_trace r) ∧
    Forall (λ e, is_http_do e = false) (fr_trace r).
Proof.
  apply (Server_Flush_empty (server_of [gauges_worker 0]) 0 100
           (λ _, accepting)).
  vm_compute. reflexivity.
Defined.

Lemma swap_boundary_witness :
  ∃ before after,
    c_hist interleaved_end
    = (AProcess <$> before) ++ ASwap :: (AProcess <$> after) ∧
    before ++ after ≡ₚ two_samples ∧
    interleaved_out = (Worker_Flush (run one_counter before) 0).1.2 ∧
    c_worker interleaved_end
    = run (Worker_Flush (run one_counter before) 0).1.1 after.
Proof.
  apply (swap_boundary one_counter two_samples 0 interleaved
           interleaved_end interleaved_out).
  - vm_compute. reflexivity.
  - vm_compute. reflexivity.
  - vm_compute. repeat constructor.
Defined.

(** In that run the counter sample is flushed and the other observation
    is left for the next flush. *)
Example interleaved_split :
  c_hist interleaved_end
  = [AProcess counter_sample; ASwap; AProcess unknown_sample] ∧
  dd_fields <$> interleaved_out = [("counter", 6)] ∧
  w_metrics (c_worker interleaved_end) = 1.
Proof. vm_compute. done. Qed.

(** Scenario A in small: a first counter sample creates the sampler, logs
    it and adds the value; a second one only adds. *)
Example first_counter_sample :
  Worker_ProcessMetric (NewWorker 0 [] false 0 0) counter_sample =
    (mkWorker 0 1 {[ 7 := 1 ]} ∅ ∅ ∅ ∅ [] false 0 0,
     [ELock; ELog Debug [("name", FStr "requests")] "New counter"; EUnlock],
     Returns).
Proof. vm_compute. reflexivity. Qed.

Example second_counter_sample :
  Worker_ProcessMetric one_counter counter_sample =
    (mkWorker 0 2 {[ 7 := 6 ]} ∅ ∅ ∅ ∅ [] false 0 0, [ELock; EUnlock], Returns).
Proof. vm_compute. reflexivity. Qed.

(** Scenario E in small: a backend that answers 500 has the chunk counted
    under [cause:500], after one request. *)
Example rejected_chunk :
  let env := mkWorld (λ _, Some []) (λ meth url body, Some (mkRequest meth url body []))
               (λ _, Some (mkResponse 500 "500 Internal Server Error" [] "" false)) in
  let tr := Server_flushPart (server_of []) env [mkDDMetric ("gauge", 1) "host"] in
  failures tr = [(1, ["cause:500"])] ∧ attempts tr = 1%nat.
Proof. vm_compute. done. Qed.

End Scenarios.

(** * More of the two files *)

(** ** [ProcessMetric], kind by kind *)

Section ProcessMetricProps.
Context `{Samplers}.
Local Abbreviation DDM := (DDMetric DDFields).

(** Looking a digest up, storing a fresh sampler when it is missing and
    then updating the stored sampler comes to one insertion. *)
Lemma ensure_alter {S} (m : gmap Z S) d fresh (f : S → S) :
  alter f d (if bool_decide (is_Some (m !! d)) then m else <[d := fresh]> m)
  = <[d := f (default fresh (m !! d))]> m.
Proof.
  case_bool_decide as Hp.
  - destruct Hp as [x E]. rewrite E. simpl.
    apply map_eq. intros j. destruct (decide (d = j)) as [<-|].
    + by rewrite lookup_alter_eq, lookup_insert_eq, E.
    + by rewrite lookup_alter_ne, lookup_insert_ne.
  - apply eq_None_not_Some in Hp. rewrite Hp. simpl. apply alter_insert_eq.
Qed.

Lemma ensure_only {S} (m : gmap Z S) d fresh :
  (if bool_decide (is_Some (m !! d)) then m else <[d := fresh]> m)
  = <[d := default fresh (m !! d)]> m.
Proof.
  case_bool_decide as Hp.
  - destruct Hp as [x E]. rewrite E. simpl. by rewrite insert_id.
  - apply eq_None_not_Some in Hp. by rewrite Hp.
Qed.

Lemma float_kind_matches m :
  m_Type m ∈ ["counter"; "gauge"; "histogram"; "timer"] →
  value_matches_kind m = match m_Value m with VFloat64 _ => true | _ => false end.
Proof. intros Hk. unfold value_matches_kind. by rewrite decide_True. Qed.

Lemma set_kind_matches m :
  m_Type m = "set" →
  value_matches_kind m = match m_Value m with VString _ => true | _ => false end.
Proof.
  intros Hk. unfold value_matches_kind.
  rewrite decide_False
    by (rewrite Hk, !elem_of_cons, elem_of_nil;
        intros [?|[?|[?|[?|[]]]]]; discriminate).
  by rewrite decide_True.
Qed.

Local Ltac worker_fields :=
  cbn [set_counters set_gauges set_histograms set_sets set_timers set_metrics
       w_id w_metrics w_counters w_gauges w_histograms w_sets w_timers
       w_histogramPercentiles w_histogramCounter w_bloomSetSize
       w_bloomSetAccuracy].

Lemma ensure_counters w d fresh :
  (if bool_decide (is_Some (w_counters w !! d)) then w
   else set_counters (<[d := fresh]> (w_counters w)) w)
  = set_counters (<[d := default fresh (w_counters w !! d)]> (w_counters w)) w.
Proof.
  rewrite <-ensure_only. destruct w. worker_fields. by case_bool_decide.
Qed.

Lemma ensure_gauges w d fresh :
  (if bool_decide (is_Some (w_gauges w !! d)) then w
   else set_gauges (<[d := fresh]> (w_gauges w)) w)
  = set_gauges (<[d := default fresh (w_gauges w !! d)]> (w_gauges w)) w.
Proof.
  rewrite <-ensure_only. destruct w. worker_fields. by case_bool_decide.
Qed.

Lemma ensure_histograms w d fresh :
  (if bool_decide (is_Some (w_histograms w !! d)) then w
   else set_histograms (<[d := fresh]> (w_histograms w)) w)
  = set_histograms
      (<[d := default fresh (w_histograms w !! d)]> (w_histograms w)) w.
Proof.
  rewrite <-ensure_only. destruct w. worker_fields. by case_bool_decide.
Qed.

Lemma ensure_sets w d fresh :
  (if bool_decide (is_Some (w_sets w !! d)) then w
   else set_sets (<[d := fresh]> (w_sets w)) w)
  = set_sets (<[d := default fresh (w_sets w !! d)]> (w_sets w)) w.
Proof.
  rewrite <-ensure_only. destruct w. worker_fields. by case_bool_decide.
Qed.

Lemma ensure_timers w d fresh :
  (if bool_decide (is_Some (w_timers w !! d)) then w
   else set_timers (<[d := fresh]> (w_timers w)) w)
  = set_timers (<[d := default fresh (w_timers w !! d)]> (w_timers w)) w.
Proof.
  rewrite <-ensure_only. destruct w. worker_fields. by case_bool_decide.
Qed.

Lemma sample_metric_counter w m :
  m_Type m = "counter" →
  sample_metric w m =
    (set_counters
       (<[m_Digest m :=
            sample_counter
              (default (NewCounter (m_Name m) (m_Tags m))
                 (w_counters w !! m_Digest m)) m]> (w_counters w)) w,
     log_new (bool_decide (is_Some (w_counters w !! m_Digest m)))
       (m_Name m) "New counter",
     if value_matches_kind m then Returns else Panics).
Proof.
  intros Hk. rewrite float_kind_matches by (rewrite Hk; set_solver).
  unfold sample_metric, sample_counter. rewrite decide_True by done.
  cbv zeta. rewrite ensure_counters.
  destruct (m_Value m); cbn [assert_float64]; worker_fields;
    by rewrite ?alter_insert_eq.
Qed.

Lemma sample_metric_gauge w m :
  m_Type m = "gauge" →
  sample_metric w m =
    (set_gauges
       (<[m_Digest m :=
            sample_gauge
              (default (NewGauge (m_Name m) (m_Tags m))
                 (w_gauges w !! m_Digest m)) m]> (w_gauges w)) w,
     log_new (bool_decide (is_Some (w_gauges w !! m_Digest m)))
       (m_Name m) "New gauge",
     if value_matches_kind m then Returns else Panics).
Proof.
  intros Hk. rewrite float_kind_matches by (rewrite Hk; set_solver).
  unfold sample_metric, sample_gauge.
  rewrite decide_False by (rewrite Hk; discriminate).
  rewrite decide_True by done.
  cbv zeta. rewrite ensure_gauges.
  destruct (m_Value m); cbn [assert_float64]; worker_fields;
    by rewrite ?alter_insert_eq.
Qed.

Lemma sample_metric_histogram w m :
  m_Type m = "histogram" →
  sample_metric w m =
    (set_histograms
       (<[m_Digest m :=
            sample_histo
              (default (NewHist (m_Name m) (m_Tags m)
                          (w_histogramPercentiles w) (w_histogramCounter w))
                 (w_histograms w !! m_Digest m)) m]> (w_histograms w)) w,
     log_new (bool_decide (is_Some (w_histograms w !! m_Digest m)))
       (m_Name m) "New histogram",
     if value_matches_kind m then Returns else Panics).
Proof.
  intros Hk. rewrite float_kind_matches by (rewrite Hk; set_solver).
  unfold sample_metric, sample_histo.
  rewrite !decide_False by (rewrite Hk; discriminate).
  rewrite decide_True by done.
  cbv zeta. rewrite ensure_histograms.
  destruct (m_Value m); cbn [assert_float64]; worker_fields;
    by rewrite ?alter_insert_eq.
Qed.

Lemma sample_metric_set w m :
  m_Type m = "set" →
  sample_metric w m =
    (set_sets
       (<[m_Digest m :=
            sample_set
              (default (NewSet (m_Name m) (m_Tags m)
                          (w_bloomSetSize w) (w_bloomSetAccuracy w))
                 (w_sets w !! m_Digest m)) m]> (w_sets w)) w,
     log_new (bool_decide (is_Some (w_sets w !! m_Digest m)))
       (m_Name m) "New set",
     if value_matches_kind m then Returns else Panics).
Proof.
  intros Hk. rewrite set_kind_matches by done.
  unfold sample_metric, sample_set.
  rewrite !decide_False by (rewrite Hk; discriminate).
  rewrite decide_True by done.
  cbv zeta. rewrite ensure_sets.
  destruct (m_Value m); cbn [assert_string]; worker_fields;
    by rewrite ?alter_insert_eq.
Qed.

Lemma sample_metric_timer w m :
  m_Type m = "timer" →
  sample_metric w m =
    (set_timers
       (<[m_Digest m :=
            sample_histo
              (default (NewHist (m_Name m) (m_Tags m)
                          (w_histogramPercentiles w) (w_histogramCounter w))
                 (w_timers w !! m_Digest m)) m]> (w_timers w)) w,
     log_new (bool_decide (is_Some (w_timers w !! m_Digest m)))
       (m_Name m) "New timer",
     if value_matches_kind m then Returns else Panics).
Proof.
  intros Hk. rewrite float_kind_matches by (rewrite Hk; set_solver).
  unfold sample_metric, sample_histo.
  rewrite !decide_False by (rewrite Hk; discriminate).
  rewrite decide_True by done.
  cbv zeta. rewrite ensure_timers.
  destruct (m_Value m); cbn [assert_float64]; worker_fields;
    by rewrite ?alter_insert_eq.
Qed.

Lemma kind_cases m :
  m_Type m = "counter" ∨ m_Type m = "gauge" ∨ m_Type m = "histogram" ∨
  m_Type m = "set" ∨ m_Type m = "timer" ∨ m_Type m ∉ known_kinds.
Proof.
  destruct (decide (m_Type m = "counter")); [by left|].
  destruct (decide (m_Type m = "gauge")); [by right; left|].
  destruct (decide (m_Type m = "histogram")); [by right; right; left|].
  destruct (decide (m_Type m = "set")); [by right; right; right; left|].
  destruct (decide (m_Type m = "timer")); [by right; right; right; right; left|].
  right; right; right; right; right. unfold known_kinds.
  rewrite !not_elem_of_cons. split_and!; [done..|apply not_elem_of_nil].
Qed.

Lemma ProcessMetric_eq w m :
  Worker_ProcessMetric w m =
    ((sample_metric (count_metric w) m).1.1,
     [ELock] ++ (sample_metric (count_metric w) m).1.2 ++ [EUnlock],
     (sample_metric (count_metric w) m).2).
Proof.
  unfold Worker_ProcessMetric.
  by destruct (sample_metric (count_metric w) m) as [[??]?].
Qed.

(** X1.  What [ProcessMetric] does for each of the five kinds, in one
    equation per kind: the counter goes up by one; the sampler stored
    under the digest in the map of that kind becomes the old one, or a
    fresh one made from the observation's name and tags (and, for
    histograms, timers and sets, the worker's settings) when the digest
    was not there, with the sample applied when the value has the right
    dynamic type; only a fresh sampler is logged; and the call returns
    when the value has the right dynamic type and panics otherwise. *)
Theorem ProcessMetric_by_kind w m :
  let w1 := count_metric w in
  let d := m_Digest m in
  let locked (body : list Event) := [ELock] ++ body ++ [EUnlock] in
  let ending := if value_matches_kind m then Returns else Panics in
  (m_Type m = "counter" →
   Worker_ProcessMetric w m =
     (set_counters
        (<[d := sample_counter
                  (default (NewCounter (m_Name m) (m_Tags m))
                     (w_counters w !! d)) m]> (w_counters w)) w1,
      locked (log_new (bool_decide (is_Some (w_counters w !! d)))
                (m_Name m) "New counter"),
      ending)) ∧
  (m_Type m = "gauge" →
   Worker_ProcessMetric w m =
     (set_gauges
        (<[d := sample_gauge
                  (default (NewGauge (m_Name m) (m_Tags m))
                     (w_gauges w !! d)) m]> (w_gauges w)) w1,
      locked (log_new (bool_decide (is_Some (w_gauges w !! d)))
                (m_Name m) "New gauge"),
      ending)) ∧
  (m_Type m = "histogram" →
   Worker_ProcessMetric w m =
     (set_histograms
        (<[d := sample_histo
                  (default (NewHist (m_Name m) (m_Tags m)
                              (w_histogramPercentiles w)
                              (w_histogramCounter w))
                     (w_histograms w !! d)) m]> (w_histograms w)) w1,
      locked (log_new (bool_decide (is_Some (w_histograms w !! d)))
                (m_Name m) "New histogram"),
      ending)) ∧
  (m_Type m = "set" →
   Worker_ProcessMetric w m =
     (set_sets
        (<[d := sample_set
                  (default (NewSet (m_Name m) (m_Tags m)
                              (w_bloomSetSize w) (w_bloomSetAccuracy w))
                     (w_sets w !! d)) m]> (w_sets w)) w1,
      locked (log_new (bool_decide (is_Some (w_sets w !! d)))
                (m_Name m) "New set"),
      ending)) ∧
  (m_Type m = "timer" →
   Worker_ProcessMetric w m =
     (set_timers
        (<[d := sample_histo
                  (default (NewHist (m_Name m) (m_Tags m)
                              (w_histogramPercentiles w)
                              (w_histogramCounter w))
                     (w_timers w !! d)) m]> (w_timers w)) w1,
      locked (log_new (bool_decide (is_Some (w_timers w !! d)))
                (m_Name m) "New timer"),
      ending)).
Proof.
  cbv zeta. rewrite ProcessMetric_eq. split_and!; intros Hk.
  - by rewrite sample_metric_counter.
  - by rewrite sample_metric_gauge.
  - by rewrite sample_metric_histogram.
  - by rewrite sample_metric_set.
  - by rewrite sample_metric_timer.
Qed.

(** X2.  [ProcessMetric] touches nothing but the counter and one entry:
    whatever the observation, the worker's settings stay, the maps of the
    other kinds stay, and in every map the samplers stored under other
    digests stay. *)
Theorem ProcessMetric_frame w m :
  let w' := (Worker_ProcessMetric w m).1.1 in
  w_metrics w' = int_add (w_metrics w) 1 ∧
  (w_id w' = w_id w ∧
   w_histogramPercentiles w' = w_histogramPercentiles w ∧
   w_histogramCounter w' = w_histogramCounter w ∧
   w_bloomSetSize w' = w_bloomSetSize w ∧
   w_bloomSetAccuracy w' = w_bloomSetAccuracy w) ∧
  (m_Type m ≠ "counter" → w_counters w' = w_counters w) ∧
  (m_Type m ≠ "gauge" → w_gauges w' = w_gauges w) ∧
  (m_Type m ≠ "histogram" → w_histograms w' = w_histograms w) ∧
  (m_Type m ≠ "set" → w_sets w' = w_sets w) ∧
  (m_Type m ≠ "timer" → w_timers w' = w_timers w) ∧
  (∀ d, d ≠ m_Digest m →
     w_counters w' !! d = w_counters w !! d ∧
     w_gauges w' !! d = w_gauges w !! d ∧
     w_histograms w' !! d = w_histograms w !! d ∧
     w_sets w' !! d = w_sets w !! d ∧
     w_timers w' !! d = w_timers w !! d).
Proof.
  cbv zeta. rewrite ProcessMetric_eq. cbn [fst].
  destruct (kind_cases m) as [Hk|[Hk|[Hk|[Hk|[Hk|Hk]]]]];
    [rewrite sample_metric_counter by done
    |rewrite sample_metric_gauge by done
    |rewrite sample_metric_histogram by done
    |rewrite sample_metric_set by done
    |rewrite sample_metric_timer by done
    |rewrite unknown_kind_sample by done];
    cbn [fst]; unfold count_metric; destruct w; worker_fields;
    (split_and!; [done..|]);
    intros d Hd; by rewrite ?lookup_insert_ne by done.
Qed.

(** ** Many observations *)

Local Abbreviation step_state w m := (Worker_ProcessMetric w m).1.1.

Lemma run_cons w m ms : run w (m :: ms) = run (step_state w m) ms.
Proof. reflexivity. Qed.

Lemma step_settings w m :
  w_id (step_state w m) = w_id w ∧
  w_histogramPercentiles (step_state w m) = w_histogramPercentiles w ∧
  w_histogramCounter (step_state w m) = w_histogramCounter w ∧
  w_bloomSetSize (step_state w m) = w_bloomSetSize w ∧
  w_bloomSetAccuracy (step_state w m) = w_bloomSetAccuracy w.
Proof.
  rewrite ProcessMetric_eq. cbn [fst].
  destruct (kind_cases m) as [Hk|[Hk|[Hk|[Hk|[Hk|Hk]]]]];
    [rewrite sample_metric_counter by done
    |rewrite sample_metric_gauge by done
    |rewrite sample_metric_histogram by done
    |rewrite sample_metric_set by done
    |rewrite sample_metric_timer by done
    |rewrite unknown_kind_sample by done];
    cbn [fst]; unfold count_metric; by destruct w.
Qed.

(** One call, seen from one digest of one map. *)
Lemma step_lookup w m d :
  w_counters (step_state w m) !! d
  = (if decide (m_Type m = "counter" ∧ m_Digest m = d)
     then Some (sample_counter
                  (default (NewCounter (m_Name m) (m_Tags m))
                     (w_counters w !! d)) m)
     else w_counters w !! d) ∧
  w_gauges (step_state w m) !! d
  = (if decide (m_Type m = "gauge" ∧ m_Digest m = d)
     then Some (sample_gauge
                  (default (NewGauge (m_Name m) (m_Tags m))
                     (w_gauges w !! d)) m)
     else w_gauges w !! d) ∧
  w_histograms (step_state w m) !! d
  = (if decide (m_Type m = "histogram" ∧ m_Digest m = d)
     then Some (sample_histo
                  (default (NewHist (m_Name m) (m_Tags m)
                              (w_histogramPercentiles w)
                              (w_histogramCounter w))
                     (w_histograms w !! d)) m)
     else w_histograms w !! d) ∧
  w_sets (step_state w m) !! d
  = (if decide (m_Type m = "set" ∧ m_Digest m = d)
     then Some (sample_set
                  (default (NewSet (m_Name m) (m_Tags m)
                              (w_bloomSetSize w) (w_bloomSetAccuracy w))
                     (w_sets w !! d)) m)
     else w_sets w !! d) ∧
  w_timers (step_state w m) !! d
  = (if decide (m_Type m = "timer" ∧ m_Digest m = d)
     then Some (sample_histo
                  (default (NewHist (m_Name m) (m_Tags m)
                              (w_histogramPercentiles w)
                              (w_histogramCounter w))
                     (w_timers w !! d)) m)
     else w_timers w !! d).
Proof.
  rewrite ProcessMetric_eq. cbn [fst].
  destruct (kind_cases m) as [Hk|[Hk|[Hk|[Hk|[Hk|Hk]]]]];
    [rewrite sample_metric_counter by done
    |rewrite sample_metric_gauge by done
    |rewrite sample_metric_histogram by done
    |rewrite sample_metric_set by done
    |rewrite sample_metric_timer by done
    |rewrite unknown_kind_sample by done];
    cbn [fst]; unfold count_metric; destruct w; worker_fields;
    try (unfold known_kinds in Hk; rewrite !not_elem_of_cons in Hk;
         destruct Hk as (?&?&?&?&?&_));
    split_and!;
    (case_decide as Hc;
     [destruct Hc as [Hc <-]; first [congruence | by rewrite lookup_insert_eq]
     |first [done
            |rewrite lookup_insert_ne; [done|]; intros <-; by apply Hc]]).
Qed.

Lemma fold_series_ext {S} (new1 new2 : Metric → S) sample old l :
  (∀ m, new1 m = new2 m) →
  fold_series new1 sample old l = fold_series new2 sample old l.
Proof.
  intros Hnew. revert old. unfold fold_series.
  induction l as [|m l IH]; intros old; [done|]. simpl. by rewrite Hnew, IH.
Qed.

Lemma fold_series_is_Some {S} (new : Metric → S) sample old l :
  is_Some (fold_series new sample old l) ↔ is_Some old ∨ l ≠ [].
Proof.
  revert old. unfold fold_series.
  induction l as [|m l IH]; intros old; simpl.
  - split; [by left|]. by intros [?|?].
  - rewrite IH. split; [by right|]. intros _. left. eauto.
Qed.

Lemma series_nonempty kind d ms : series kind d ms ≠ [] ↔ d ∈ digests_of kind ms.
Proof.
  unfold series, digests_of.
  rewrite elem_of_list_to_set, list_elem_of_fmap. split.
  - intros Hne. destruct (filter _ ms) as [|m l] eqn:E; [done|].
    assert (m ∈ filter (λ m, m_Type m = kind ∧ m_Digest m = d) ms) as Hin
      by (rewrite E; apply list_elem_of_here).
    apply list_elem_of_filter in Hin as [[Hk Hd] Hin].
    exists m. split; [done|]. by apply list_elem_of_filter.
  - intros (m & -> & [Hk Hin]%list_elem_of_filter) Hnil.
    assert (m ∈ filter (λ m', m_Type m' = kind ∧ m_Digest m' = m_Digest m) ms)
      as Hm by (by apply list_elem_of_filter).
    rewrite Hnil in Hm. by apply elem_of_nil in Hm.
Qed.

(** The shape shared by the five maps: what a map holds under a digest
    after a run is the series of that kind and digest folded into what
    it held before. *)
Lemma run_lookup_generic {S} (get : Worker → gmap Z S) kind
    (new : Worker → Metric → S) (sample : S → Metric → S) :
  (∀ w m d,
     get (step_state w m) !! d
     = if decide (m_Type m = kind ∧ m_Digest m = d)
       then Some (sample (default (new w m) (get w !! d)) m)
       else get w !! d) →
  (∀ w m0 m, new (step_state w m0) m = new w m) →
  ∀ ms w d,
    get (run w ms) !! d
    = fold_series (new w) sample (get w !! d) (series kind d ms).
Proof.
  intros Hstep Hnew. induction ms as [|m ms IH]; intros w d; [done|].
  rewrite run_cons, IH, Hstep. unfold series. rewrite filter_cons.
  rewrite (fold_series_ext (new (step_state w m)) (new w)) by apply Hnew.
  by case_decide.
Qed.

Lemma run_dom_generic {S} (get : Worker → gmap Z S) kind
    (new : Worker → Metric → S) (sample : S → Metric → S) :
  (∀ ms w d,
     get (run w ms) !! d
     = fold_series (new w) sample (get w !! d) (series kind d ms)) →
  ∀ ms w, dom (get (run w ms)) = dom (get w) ∪ digests_of kind ms.
Proof.
  intros Hrun ms w. apply set_eq. intros d.
  rewrite elem_of_union, !elem_of_dom, Hrun, fold_series_is_Some.
  by rewrite series_nonempty.
Qed.

Lemma run_settings w ms :
  w_id (run w ms) = w_id w ∧
  w_histogramPercentiles (run w ms) = w_histogramPercentiles w ∧
  w_histogramCounter (run w ms) = w_histogramCounter w ∧
  w_bloomSetSize (run w ms) = w_bloomSetSize w ∧
  w_bloomSetAccuracy (run w ms) = w_bloomSetAccuracy w.
Proof.
  revert w. induction ms as [|m ms IH]; intros w; [done|].
  rewrite run_cons. destruct (IH (step_state w m)) as (->&->&->&->&->).
  apply step_settings.
Qed.

(** X3.  Each series is aggregated on its own, in arrival order.  After
    any run of [ProcessMetric] calls, the sampler a map holds under a
    digest is what it held before with exactly the observations of that
    kind and digest applied, in the order they came; a fresh sampler is
    made, from the name and tags of the observation at hand, only when
    there is none.  Observations of other kinds or digests, also unknown
    ones, make no difference. *)
Theorem run_series w ms d :
  w_counters (run w ms) !! d
  = fold_series (λ m, NewCounter (m_Name m) (m_Tags m)) sample_counter
      (w_counters w !! d) (series "counter" d ms) ∧
  w_gauges (run w ms) !! d
  = fold_series (λ m, NewGauge (m_Name m) (m_Tags m)) sample_gauge
      (w_gauges w !! d) (series "gauge" d ms) ∧
  w_histograms (run w ms) !! d
  = fold_series
      (λ m, NewHist (m_Name m) (m_Tags m)
              (w_histogramPercentiles w) (w_histogramCounter w))
      sample_histo (w_histograms w !! d) (series "histogram" d ms) ∧
  w_sets (run w ms) !! d
  = fold_series
      (λ m, NewSet (m_Name m) (m_Tags m)
              (w_bloomSetSize w) (w_bloomSetAccuracy w))
      sample_set (w_sets w !! d) (series "set" d ms) ∧
  w_timers (run w ms) !! d
  = fold_series
      (λ m, NewHist (m_Name m) (m_Tags m)
              (w_histogramPercentiles w) (w_histogramCounter w))
      sample_histo (w_timers w !! d) (series "timer" d ms).
Proof.
  split_and!.
  - apply (run_lookup_generic w_counters "counter"
             (λ _ m, NewCounter (m_Name m) (m_Tags m)) sample_counter);
      [intros; apply step_lookup|done].
  - apply (run_lookup_generic w_gauges "gauge"
             (λ _ m, NewGauge (m_Name m) (m_Tags m)) sample_gauge);
      [intros; apply step_lookup|done].
  - apply (run_lookup_generic w_histograms "histogram"
             (λ w m, NewHist (m_Name m) (m_Tags m)
                       (w_histogramPercentiles w) (w_histogramCounter w))
             sample_histo); [intros; apply step_lookup|].
    intros w' m0 m. by destruct (step_settings w' m0) as (_&->&->&_).
  - apply (run_lookup_generic w_sets "set"
             (λ w m, NewSet (m_Name m) (m_Tags m)
                       (w_bloomSetSize w) (w_bloomSetAccuracy w))
             sample_set); [intros; apply step_lookup|].
    intros w' m0 m. by destruct (step_settings w' m0) as (_&_&_&->&->).
  - apply (run_lookup_generic w_timers "timer"
             (λ w m, NewHist (m_Name m) (m_Tags m)
                       (w_histogramPercentiles w) (w_histogramCounter w))
             sample_histo); [intros; apply step_lookup|].
    intros w' m0 m. by destruct (step_settings w' m0) as (_&->&->&_).
Qed.

Lemma run_dom_all w ms :
  dom (w_counters (run w ms)) = dom (w_counters w) ∪ digests_of "counter" ms ∧
  dom (w_gauges (run w ms)) = dom (w_gauges w) ∪ digests_of "gauge" ms ∧
  dom (w_histograms (run w ms))
  = dom (w_histograms w) ∪ digests_of "histogram" ms ∧
  dom (w_sets (run w ms)) = dom (w_sets w) ∪ digests_of "set" ms ∧
  dom (w_timers (run w ms)) = dom (w_timers w) ∪ digests_of "timer" ms.
Proof.
  split_and!.
  - apply (run_dom_generic w_counters "counter"
             (λ _ m, NewCounter (m_Name m) (m_Tags m)) sample_counter).
    apply run_lookup_generic; [intros; apply step_lookup|done].
  - apply (run_dom_generic w_gauges "gauge"
             (λ _ m, NewGauge (m_Name m) (m_Tags m)) sample_gauge).
    apply run_lookup_generic; [intros; apply step_lookup|done].
  - apply (run_dom_generic w_histograms "histogram"
             (λ w m, NewHist (m_Name m) (m_Tags m)
                       (w_histogramPercentiles w) (w_histogramCounter w))
             sample_histo).
    apply run_lookup_generic; [intros; apply step_lookup|].
    intros w' m0 m. by destruct (step_settings w' m0) as (_&->&->&_).
  - apply (run_dom_generic w_sets "set"
             (λ w m, NewSet (m_Name m) (m_Tags m)
                       (w_bloomSetSize w) (w_bloomSetAccuracy w))
             sample_set).
    apply run_lookup_generic; [intros; apply step_lookup|].
    intros w' m0 m. by destruct (step_settings w' m0) as (_&_&_&->&->).
  - apply (run_dom_generic w_timers "timer"
             (λ w m, NewHist (m_Name m) (m_Tags m)
                       (w_histogramPercentiles w) (w_histogramCounter w))
             sample_histo).
    apply run_lookup_generic; [intros; apply step_lookup|].
    intros w' m0 m. by destruct (step_settings w' m0) as (_&->&->&_).
Qed.

(** X4.  Samplers are made per kind and per digest, and only by an
    observation: after any run of [ProcessMetric] calls the digests a map
    holds are those it held before and those of the observations of its
    kind. *)
Theorem run_digests w ms :
  dom (w_counters (run w ms)) = dom (w_counters w) ∪ digests_of "counter" ms ∧
  dom (w_gauges (run w ms)) = dom (w_gauges w) ∪ digests_of "gauge" ms ∧
  dom (w_histograms (run w ms))
  = dom (w_histograms w) ∪ digests_of "histogram" ms ∧
  dom (w_sets (run w ms)) = dom (w_sets w) ∪ digests_of "set" ms ∧
  dom (w_timers (run w ms)) = dom (w_timers w) ∪ digests_of "timer" ms.
Proof.
  split_and!.
  - apply (run_dom_generic w_counters "counter"
             (λ _ m, NewCounter (m_Name m) (m_Tags m)) sample_counter).
    apply run_lookup_generic; [intros; apply step_lookup|done].
  - apply (run_dom_generic w_gauges "gauge"
             (λ _ m, NewGauge (m_Name m) (m_Tags m)) sample_gauge).
    apply run_lookup_generic; [intros; apply step_lookup|done].
  - apply (run_dom_generic w_histograms "histogram"
             (λ w m, NewHist (m_Name m) (m_Tags m)
                       (w_histogramPercentiles w) (w_histogramCounter w))
             sample_histo).
    apply run_lookup_generic; [intros; apply step_lookup|].
    intros w' m0 m. by destruct (step_settings w' m0) as (_&->&->&_).
  - apply (run_dom_generic w_sets "set"
             (λ w m, NewSet (m_Name m) (m_Tags m)
                       (w_bloomSetSize w) (w_bloomSetAccuracy w))
             sample_set).
    apply run_lookup_generic; [intros; apply step_lookup|].
    intros w' m0 m. by destruct (step_settings w' m0) as (_&_&_&->&->).
  - apply (run_dom_generic w_timers "timer"
             (λ w m, NewHist (m_Name m) (m_Tags m)
                       (w_histogramPercentiles w) (w_histogramCounter w))
             sample_histo).
    apply run_lookup_generic; [intros; apply step_lookup|].
    intros w' m0 m. by destruct (step_settings w' m0) as (_&->&->&_).
Qed.

Lemma step_metrics w m :
  w_metrics (step_state w m) = int_add (w_metrics w) 1.
Proof.
  rewrite ProcessMetric_eq. cbn [fst].
  destruct (kind_cases m) as [Hk|[Hk|[Hk|[Hk|[Hk|Hk]]]]];
    [rewrite sample_metric_counter by done
    |rewrite sample_metric_gauge by done
    |rewrite sample_metric_histogram by done
    |rewrite sample_metric_set by done
    |rewrite sample_metric_timer by done
    |rewrite unknown_kind_sample by done];
    cbn [fst]; unfold count_metric; by destruct w.
Qed.

Lemma run_metrics w ms :
  int_min ≤ w_metrics w → w_metrics w + len ms ≤ int_max →
  w_metrics (run w ms) = w_metrics w + len ms.
Proof.
  revert w. unfold len.
  induction ms as [|m ms IH]; intros w Hlo Hhi; simpl in Hhi |- *; [lia|].
  change (foldl _ _ ms) with (run (step_state w m) ms).
  assert (w_metrics (step_state w m) = w_metrics w + 1) as Hs.
  { rewrite step_metrics. unfold int_add. apply wrap64_id. lia. }
  rewrite IH; rewrite Hs; lia.
Qed.

(** X5.  The counts a [Flush] reports about the worker itself are right.
    When a worker has been flushed and [n] observations (no more than fit
    an [int64]) have been processed since, the next [Flush] reports [n] as
    [worker.metrics_processed_total], under the worker's id, and for each
    kind the number of distinct digests seen as
    [worker.metrics_flushed_total]. *)
Theorem Flush_self_counts w i1 ms i2 :
  len ms ≤ int_max →
  let w1 := (Worker_Flush w i1).1.1 in
  let tr := (Worker_Flush (run w1 ms) i2).2 in
  let flushed kind :=
    ECount "worker.metrics_flushed_total"
      (Z.of_nat (size (digests_of kind ms)))
      ["metric_type:" +:+ kind] Rate_1_0 in
  ECount "worker.metrics_processed_total" (len ms)
    ["worker:" +:+ pretty (w_id w)] Rate_1_0 ∈ tr ∧
  flushed "counter" ∈ tr ∧ flushed "gauge" ∈ tr ∧ flushed "histogram" ∈ tr ∧
  flushed "set" ∈ tr ∧ flushed "timer" ∈ tr.
Proof.
  intros Hn. cbv zeta. rewrite !Worker_Flush_eq. cbn [fst snd].
  rewrite flush_emit_trace. unfold maps_of, take_maps.
  cbn [fst snd sn_counters sn_gauges sn_histograms sn_sets sn_timers].
  destruct (run_settings (reset_maps w) ms) as (Hid & _).
  destruct (run_dom_all (reset_maps w) ms) as (Hc & Hg & Hh & Hs & Ht).
  rewrite Hid, run_metrics by (unfold int_min; cbn; lia).
  rewrite <-!size_dom, Hc, Hg, Hh, Hs, Ht.
  change (dom (w_counters (reset_maps w))) with (∅ : gset Z).
  change (dom (w_gauges (reset_maps w))) with (dom (∅ : gmap Z Gauge)).
  change (dom (w_histograms (reset_maps w))) with (dom (∅ : gmap Z Histo)).
  change (dom (w_sets (reset_maps w))) with (dom (∅ : gmap Z SetSampler)).
  change (dom (w_timers (reset_maps w))) with (dom (∅ : gmap Z Histo)).
  rewrite !dom_empty_L, !(left_id_L ∅ (∪)).
  change (w_metrics (reset_maps w)) with 0. rewrite Z.add_0_l.
  change (w_id (reset_maps w)) with (w_id w).
  generalize (size (digests_of "counter" ms)) (size (digests_of "gauge" ms))
    (size (digests_of "histogram" ms)) (size (digests_of "set" ms))
    (size (digests_of "timer" ms)) (pretty (w_id w)) (len ms).
  intros n1 n2 n3 n4 n5 id n.
  split_and!;
    repeat first
      [ apply elem_of_app; left; apply list_elem_of_here
      | apply elem_of_app; right ].
Qed.

(** X6.  [ProcessMetric] holds the mutex from its first event to its
    last and gives it back on every way out, a panic included; in between
    it writes at most one log line and never talks to the network. *)
Theorem ProcessMetric_trace w m :
  let tr := (Worker_ProcessMetric w m).1.2 in
  ∃ body,
    tr = [ELock] ++ body ++ [EUnlock] ∧
    while_locked false tr = body ∧
    (length body ≤ 1)%nat ∧
    Forall (λ e, is_network e = false ∧ ∃ l f msg, e = ELog l f msg) body.
Proof.
  cbv zeta. rewrite ProcessMetric_eq. cbn [fst snd].
  assert (∀ present name msg,
            let body := log_new present name msg in
            while_locked false ([ELock] ++ body ++ [EUnlock]) = body ∧
            (length body ≤ 1)%nat ∧
            Forall (λ e, is_network e = false ∧ ∃ l f msg, e = ELog l f msg)
              body) as Hlog.
  { intros [] ??; cbn; (split_and!; [done|lia|]); repeat constructor; eauto. }
  destruct (kind_cases m) as [Hk|[Hk|[Hk|[Hk|[Hk|Hk]]]]];
    [rewrite sample_metric_counter by done
    |rewrite sample_metric_gauge by done
    |rewrite sample_metric_histogram by done
    |rewrite sample_metric_set by done
    |rewrite sample_metric_timer by done
    |rewrite unknown_kind_sample by done];
    cbn [fst snd]; eexists; (split; [done|]);
    first [apply Hlog | cbn; split_and!; [done|lia|repeat constructor; eauto]].
Qed.

Lemma fold_series_fresh {S} (new : Metric → S) sample m0 l :
  fold_series new sample None (m0 :: l) = Some (foldl sample (new m0) (m0 :: l)).
Proof.
  unfold fold_series. simpl. generalize (sample (new m0) m0). clear m0.
  induction l as [|m l IH]; intros x; [done|]. simpl. apply IH.
Qed.

(** X7.  From observation to record, for counters.  When a worker holds
    no counter under a digest and then processes observations among which
    the counters of that digest are [m0 :: l], the next [Flush] returns
    every record that the counter made for [m0] and fed [m0 :: l] in
    order flushes to. *)
Theorem counter_series_flushed w ms d m0 l interval r :
  w_counters w !! d = None →
  series "counter" d ms = m0 :: l →
  r ∈ Counter_Flush
        (foldl sample_counter (NewCounter (m_Name m0) (m_Tags m0)) (m0 :: l))
        interval →
  r ∈ (Worker_Flush (run w ms) interval).1.2.
Proof.
  intros Hnone Hser Hr. rewrite Worker_Flush_eq. cbn [fst snd].
  rewrite flush_emit_output, elem_of_app. left.
  apply elem_of_range_flush. eexists d, _. split; [|exact Hr].
  unfold maps_of, take_maps. cbn [fst sn_counters].
  rewrite (run_lookup_generic w_counters "counter"
             (λ _ m, NewCounter (m_Name m) (m_Tags m)) sample_counter);
    [|intros; apply step_lookup|done].
  by rewrite Hnone, Hser, fold_series_fresh.
Qed.

(** ** The loop *)

Lemma unknown_kind_matches m :
  m_Type m ∉ known_kinds → value_matches_kind m = true.
Proof.
  unfold known_kinds. rewrite !not_elem_of_cons. intros (?&?&?&?&?&_).
  unfold value_matches_kind.
  rewrite decide_False
    by (rewrite !elem_of_cons, elem_of_nil; intros [?|[?|[?|[?|[]]]]]; done).
  by rewrite decide_False.
Qed.

Lemma step_completion w m :
  (Worker_ProcessMetric w m).2
  = if value_matches_kind m then Returns else Panics.
Proof.
  rewrite ProcessMetric_eq. cbn [snd].
  destruct (kind_cases m) as [Hk|[Hk|[Hk|[Hk|[Hk|Hk]]]]];
    [rewrite sample_metric_counter by done
    |rewrite sample_metric_gauge by done
    |rewrite sample_metric_histogram by done
    |rewrite sample_metric_set by done
    |rewrite sample_metric_timer by done
    |rewrite unknown_kind_sample, unknown_kind_matches by done];
    done.
Qed.

Lemma Work_received w ms tail :
  Forall (λ m, value_matches_kind m = true) ms →
  ∃ t, Worker_Work w ((Received <$> ms) ++ tail)
       = ((Worker_Work (run w ms) tail).1.1,
          t ++ (Worker_Work (run w ms) tail).1.2,
          (Worker_Work (run w ms) tail).2).
Proof.
  intros Hms. revert w. induction Hms as [|m ms Hm _ IH]; intros w.
  - exists []. simpl. by destruct (Worker_Work w tail) as [[??]?].
  - rewrite fmap_cons, <-app_comm_cons. cbn [Worker_Work].
    pose proof (step_completion w m) as Hc. rewrite Hm in Hc.
    destruct (Worker_ProcessMetric w m) as [[w' t] c] eqn:E.
    cbn [snd] in Hc. subst c.
    destruct (IH w') as [t' ->].
    replace w' with (step_state w m) by (by rewrite E).
    rewrite run_cons. exists (t ++ t'). by rewrite app_assoc.
Qed.

(** X8.  [Work] processes what it receives in the order it receives it,
    and stops at the first receive on [QuitChan]: the worker is then as
    after [ProcessMetric] on each metric received before, nothing that
    would have come later is looked at, and the last thing [Work] does is
    log "Stopping" under the worker's id, at level [Error]. *)
Theorem Work_stops w ms rest :
  Forall (λ m, value_matches_kind m = true) ms →
  let '(w', tr, e) := Worker_Work w ((Received <$> ms) ++ Quit :: rest) in
  w' = run w ms ∧ e = Stopped ∧
  last tr = Some (ELog Error [("worker", FInt (w_id w))] "Stopping").
Proof.
  intros Hms. destruct (Work_received w ms (Quit :: rest) Hms) as [t ->].
  cbn [Worker_Work fst snd]. split_and!; [done..|].
  destruct (run_settings w ms) as (-> & _). apply last_snoc.
Qed.

(** X9.  While nothing is picked [Work] waits, with every metric
    received so far processed; and a metric whose value does not fit its
    kind ends the loop with the panic of [ProcessMetric]: the metrics
    before it have been processed, the ones after it never are. *)
Theorem Work_waits_or_crashes w ms bad rest :
  Forall (λ m, value_matches_kind m = true) ms →
  value_matches_kind bad = false →
  (Worker_Work w (Received <$> ms)).1.1 = run w ms ∧
  (Worker_Work w (Received <$> ms)).2 = Waiting ∧
  (Worker_Work w ((Received <$> ms) ++ Received bad :: rest)).1.1
  = run w (ms ++ [bad]) ∧
  (Worker_Work w ((Received <$> ms) ++ Received bad :: rest)).2 = Crashed.
Proof.
  intros Hms Hbad.
  destruct (Work_received w ms [] Hms) as [t Ht].
  rewrite app_nil_r in Ht. rewrite Ht.
  destruct (Work_received w ms (Received bad :: rest) Hms) as [t' ->].
  cbn [Worker_Work fst snd].
  pose proof (step_completion (run w ms) bad) as Hc. rewrite Hbad in Hc.
  destruct (Worker_ProcessMetric (run w ms) bad) as [[w' tb] c] eqn:E.
  cbn [snd] in Hc. subst c. cbn [fst snd].
  split_and!; [done..| |done].
  unfold run. rewrite foldl_app. cbn [foldl]. fold (run w ms). by rewrite E.
Qed.

End ProcessMetricProps.

(** ** [Worker.Flush] and [Server.Flush] *)

Section MoreFlushProps.
Context `{Samplers}.
Local Abbreviation DDM := (DDMetric DDFields).
Local Abbreviation nth_chunk fm W c :=
  (λ i : Z, if decide (i < W - 1)
            then take (Z.to_nat c) (drop (Z.to_nat (i * c)) fm)
            else drop (Z.to_nat (i * c)) fm).

(** The first loop of [Server.Flush], worker by worker. *)
Lemma flush_workers_each ws i interval acc :
  (flush_workers ws i interval acc).1.1.1
  = (λ w, (Worker_Flush w interval).1.1) <$> ws ∧
  (flush_workers ws i interval acc).1.1.2
  = (λ w, (Worker_Flush w interval).1.2) <$> ws.
Proof.
  revert i acc. induction ws as [|w ws IH]; intros i acc; [done|].
  cbn [flush_workers].
  destruct (Worker_Flush w interval) as [[w' tmp] t] eqn:E.
  specialize (IH (i + 1) (int_add acc (len tmp))).
  destruct (flush_workers ws (i + 1) interval (int_add acc (len tmp)))
    as [[[ws' outs] tc] t'].
  cbn [fst snd] in *. destruct IH as [-> ->]. by rewrite !fmap_cons, E.
Qed.

(** The combined record sequence: every worker's output, in the order of
    the workers, under the server's hostname. *)
Lemma finalMetrics_of_eq s interval :
  finalMetrics_of s interval
  = set_Hostname (s_Hostname s)
      <$> concat ((λ w, (Worker_Flush w interval).1.2) <$> s_Workers s).
Proof.
  unfold finalMetrics_of, collect.
  destruct (flush_workers_each (s_Workers s) 0 interval 0) as [_ ->].
  by rewrite concat_replicate_nil.
Qed.

(** [Server.Flush] with its first loop and [totalCount] worked out. *)
Lemma Server_Flush_eq s interval L world :
  let fm := finalMetrics_of s interval in
  let s' := with_Workers ((λ w, (Worker_Flush w interval).1.1) <$> s_Workers s) s in
  let t1 := (flush_workers (s_Workers s) 0 interval 0).2
            ++ [EGauge "flush.post_metrics_total" (len fm) [] Rate_1_0] in
  len fm ≤ int_max →
  Server_Flush s interval L world =
    if decide (len fm = 0) then
      Some {| fr_server := s';
              fr_trace := t1 ++ [ELog Info [] "Nothing to flush, skipping."];
              fr_parts := [] |}
    else
      '(workers, chunkSize, cs) ← chunks fm (len fm) L;
      Some {| fr_server := s';
              fr_trace := t1 ++
                [ELog Debug [("workers", FInt workers)] "Worker count chosen";
                 ELog Debug [("chunkSize", FInt chunkSize)] "Chunk size chosen";
                 ETiming "flush.total_duration_ns" [] Rate_1_0;
                 ECount "flush.error_total" 0 [] Rate_0_1;
                 ELog Info [("metrics", FInt (len fm))]
                   "Completed flush to Datadog"];
              fr_parts :=
                imap (λ i chunk,
                        (chunk, Server_flushPart s (world (Z.of_nat i)) chunk))
                  cs |}.
Proof.
  cbv zeta. intros Hmax. unfold Server_Flush, finalMetrics_of in *.
  pose proof (flush_workers_each (s_Workers s) 0 interval 0) as [Hws _].
  destruct (flush_workers (s_Workers s) 0 interval 0)
    as [[[ws' outs] tc] t0] eqn:E. cbn [fst snd] in *.
  rewrite len_collect in Hmax.
  pose proof (len_nonneg (concat outs)).
  apply flush_workers_total in E; [|lia..].
  rewrite Z.add_0_l in E. subst tc ws'. by rewrite len_collect.
Qed.

(** X10.  What reaches the backend.  In a cycle with something to flush
    and [metricLimit ≥ 1], the chunks put end to end are the records the
    workers flushed, worker after worker in the order of [s.Workers],
    each record unchanged but for its [Hostname], which is the server's
    whatever the sampler had put there. *)
Theorem Server_Flush_records s interval L world :
  1 ≤ len (finalMetrics_of s interval) ≤ int_max → 1 ≤ L →
  ∃ r, Server_Flush s interval L world = Some r ∧
    let sent := concat (fr_parts r).*1 in
    let flushed :=
      concat ((λ w, (Worker_Flush w interval).1.2) <$> s_Workers s) in
    dd_fields <$> sent = dd_fields <$> flushed ∧
    Forall (λ d, dd_Hostname d = s_Hostname s) sent.
Proof.
  intros Hn HL.
  destruct (Server_Flush_parts s interval L world Hn HL) as (r & Hr & Hcs).
  exists r. split; [done|]. cbv zeta. rewrite Hcs.
  destruct (chunk_arith (len (finalMetrics_of s interval)) L)
    as (HW & Hc & _); [lia..|].
  rewrite concat_chunks by lia. rewrite finalMetrics_of_eq. split.
  - rewrite <-list_fmap_compose. by apply list_fmap_ext.
  - by apply Forall_fmap, Forall_true.
Qed.

Lemma reflush_empty (ws : list Worker) i1 i2 :
  concat ((λ w, (Worker_Flush w i2).1.2)
            <$> ((λ w, (Worker_Flush w i1).1.1) <$> ws)) = [].
Proof.
  induction ws as [|w ws IH]; [done|].
  rewrite !fmap_cons. cbn [concat]. rewrite IH, app_nil_r.
  rewrite !Worker_Flush_eq. cbn [fst snd].
  change (maps_of (reset_maps w)) with empty_maps.
  apply flush_emit_empty.
Qed.

(** X11.  A cycle leaves nothing behind.  Whenever [Server.Flush]
    returns, every worker has been flushed ([s.Workers] holds the workers
    as their own [Flush] leaves them, the rest of the server is as
    before), so a second [Server.Flush] right after it finds nothing:
    it starts no [flushPart], whatever its [metricLimit]. *)
Theorem Server_Flush_again s i1 L1 world1 r i2 L2 world2 :
  len (finalMetrics_of s i1) ≤ int_max →
  Server_Flush s i1 L1 world1 = Some r →
  fr_server r
  = with_Workers ((λ w, (Worker_Flush w i1).1.1) <$> s_Workers s) s ∧
  finalMetrics_of (fr_server r) i2 = [] ∧
  ∃ r', Server_Flush (fr_server r) i2 L2 world2 = Some r' ∧ fr_parts r' = [].
Proof.
  intros Hmax Hr.
  assert (fr_server r
          = with_Workers ((λ w, (Worker_Flush w i1).1.1) <$> s_Workers s) s)
    as Hs.
  { rewrite Server_Flush_eq in Hr by done. cbv zeta in Hr.
    case_decide; [by simplify_eq|].
    destruct (chunks _ _ _) as [[[??]?]|]; by simplify_eq/=. }
  assert (finalMetrics_of (fr_server r) i2 = []) as Hempty.
  { rewrite finalMetrics_of_eq, Hs. cbn [s_Workers with_Workers].
    by rewrite reflush_empty. }
  split_and!; [done..|].
  rewrite Server_Flush_eq by (rewrite Hempty; unfold len, int_max; simpl; lia).
  cbv zeta. rewrite Hempty. rewrite decide_True by done. by eexists.
Qed.

(** X12.  A [metricLimit] of zero is not checked for: with something to
    flush, [Server.Flush] dies of an integer division by zero, after the
    workers have been flushed. *)
Theorem Server_Flush_zero_limit s interval world :
  1 ≤ len (finalMetrics_of s interval) ≤ int_max →
  Server_Flush s interval 0 world = None.
Proof.
  intros Hn. rewrite Server_Flush_eq by lia. cbv zeta.
  rewrite decide_False by lia. unfold chunks, int_quo.
  by rewrite decide_True.
Qed.

Lemma quot_neg_bounds a b : 0 ≤ a → b < 0 → - a ≤ a `quot` b ≤ 0.
Proof.
  intros Ha Hb. replace b with (- - b) by lia.
  rewrite Z.quot_opp_r by lia. rewrite Z.quot_div_nonneg by lia.
  pose proof (Z.div_pos a (- b) Ha ltac:(lia)).
  pose proof (Z.div_le_upper_bound a (- b) a ltac:(lia) ltac:(nia)). lia.
Qed.

(** X13.  A negative [metricLimit] is not checked for either.  With [n]
    records to flush and [q] the truncated quotient of [n - 1] by the
    limit: when [q = 0] everything goes out in one chunk; when [q = -1]
    the worker count is zero and [Server.Flush] dies of a division by
    zero; and when [q ≤ -2] the worker count is negative, the loop does
    not run, no [flushPart] is started and the records are dropped, yet
    the cycle is logged as a completed flush of [n] metrics. *)
Theorem Server_Flush_negative_limit s interval L world :
  1 ≤ len (finalMetrics_of s interval) ≤ int_max → L < 0 →
  let fm := finalMetrics_of s interval in
  let q := (len fm - 1) `quot` L in
  (q = 0 →
   ∃ r, Server_Flush s interval L world = Some r ∧ (fr_parts r).*1 = [fm]) ∧
  (q = -1 → Server_Flush s interval L world = None) ∧
  (q ≤ -2 →
   ∃ r, Server_Flush s interval L world = Some r ∧ fr_parts r = [] ∧
        last (fr_trace r)
        = Some (ELog Info [("metrics", FInt (len fm))]
                  "Completed flush to Datadog")).
Proof.
  intros Hn HL. cbv zeta. rewrite Server_Flush_eq by lia. cbv zeta.
  rewrite decide_False by lia.
  set (fm := finalMetrics_of s interval) in *.
  pose proof (quot_neg_bounds (len fm - 1) L ltac:(lia) HL) as Hq.
  unfold int_max in Hn.
  unfold chunks, int_quo, int_sub, int_add.
  rewrite (wrap64_id (len fm - 1)) by (unfold int_min, int_max; lia).
  rewrite (decide_False (P := L = 0)) by lia. cbn [mbind option_bind].
  rewrite (wrap64_id ((len fm - 1) `quot` L))
    by (unfold int_min, int_max; lia).
  rewrite (wrap64_id ((len fm - 1) `quot` L + 1))
    by (unfold int_min, int_max; lia).
  split_and!; intros Hcase.
  - rewrite Hcase. change (0 + 1) with 1.
    rewrite decide_False by done. cbn [mbind option_bind].
    rewrite Z.quot_1_r.
    rewrite (wrap64_id (len fm - 1)) by (unfold int_min, int_max; lia).
    rewrite (wrap64_id (len fm - 1 + 1)) by (unfold int_min, int_max; lia).
    change (seqZ 0 1) with [0]. cbn [mapM].
    unfold chunk_at, int_mul, int_sub.
    rewrite Z.mul_0_l. change (wrap64 0) with 0. change (wrap64 (1 - 1)) with 0.
    unfold slice_from. rewrite decide_True by (pose proof (len_nonneg fm); lia).
    cbn [mbind option_bind]. rewrite decide_False by lia.
    cbn [mbind option_bind mret option_ret fmap option_fmap option_map].
    eexists. split; [done|]. reflexivity.
  - rewrite Hcase. change (-1 + 1) with 0. by rewrite decide_True.
  - rewrite decide_False by lia. cbn [mbind option_bind].
    rewrite seqZ_nil by lia. cbn [mapM mret option_ret mbind option_bind].
    eexists. split; [done|]. split; [done|].
    cbn [fr_trace]. by rewrite last_app.
Qed.

(** X14.  Where each chunk comes from.  With something to flush and
    [metricLimit = L ≥ 1], chunk [i] is the run of [c = ceil(n/W)]
    records that starts at record [i * c] (cut short by the end of the
    sequence for the last chunk): the chunks keep the order of the
    records, none is empty, all but the last hold exactly [c]; and
    [W = ceil(n/L)] is the least number of chunks the limit allows, since
    [(W - 1) * L < n]. *)
Theorem Server_Flush_chunk_layout s interval L world :
  1 ≤ len (finalMetrics_of s interval) ≤ int_max → 1 ≤ L →
  let fm := finalMetrics_of s interval in
  let W := ceil_div (len fm) L in
  let c := ceil_div (len fm) W in
  ∃ r, Server_Flush s interval L world = Some r ∧
    (W - 1) * L < len fm ∧
    ∀ (i : nat) chunk, (fr_parts r).*1 !! i = Some chunk →
      chunk = take (Z.to_nat c) (drop (Z.to_nat (Z.of_nat i * c)) fm) ∧
      1 ≤ len chunk ∧
      (Z.of_nat i < W - 1 → len chunk = c).
Proof.
  intros Hn HL.
  destruct (Server_Flush_parts s interval L world Hn HL) as (r & Hr & Hcs).
  cbv zeta. exists r. split; [done|]. rewrite Hcs.
  destruct (chunk_arith (len (finalMetrics_of s interval)) L)
    as (HW & Hc & HcL & Hlast); [lia..|].
  pose proof (ceil_div_spec (len (finalMetrics_of s interval)) L ltac:(lia))
    as HWmin.
  set (fm := finalMetrics_of s interval) in *.
  set (W := ceil_div (len fm) L) in *.
  set (c := ceil_div (len fm) W) in *.
  split; [lia|]. intros i chunk. rewrite list_lookup_fmap.
  destruct (seqZ 0 W !! i) as [j|] eqn:Hj; [|done].
  apply lookup_seqZ in Hj as [-> Hi]. rewrite Z.add_0_l.
  intros [= <-].
  pose proof (len_nth_chunk fm W c (Z.of_nat i) ltac:(lia) ltac:(lia)
                ltac:(lia) ltac:(lia)) as Hlen.
  split_and!.
  - case_decide; [done|]. symmetry. apply take_ge.
    rewrite decide_False in Hlen by done. unfold len in *. lia.
  - rewrite Hlen. case_decide; lia.
  - intros Hlt. by rewrite Hlen, decide_True.
Qed.

Lemma flushPart_failures s env (chunk : list DDM) :
  failures (Server_flushPart s env chunk) = [] ∨
  ∃ tag, failures (Server_flushPart s env chunk) = [(len chunk, [tag])].
Proof.
  unfold Server_flushPart.
  destruct (json_zlib env chunk) as [reqBody|]; [|right; by eexists].
  destruct (http_NewRequest env _ _ reqBody) as [req|]; [|right; by eexists].
  destruct (http_Do env _) as [resp|]; [|right; by eexists].
  destruct (rs_ReadErr resp); case_decide;
    first [by left | right; by eexists].
Qed.

Lemma parts_conserved (parts : list (list DDM * list Event)) :
  Forall (λ p, failures p.2 = [] ∨ ∃ tag, failures p.2 = [(len p.1, [tag])])
    parts →
  lost parts + delivered parts = len (concat parts.*1) ∧
  0 ≤ lost parts ∧ 0 ≤ delivered parts.
Proof.
  induction 1 as [|[chunk tr] parts Hp _ (IH1 & IH2 & IH3)]; [done|].
  cbn [lost delivered foldr fst snd concat fmap list_fmap].
  fold (lost parts). fold (delivered parts).
  change (list_fmap _ _ fst parts) with (parts.*1).
  rewrite len_app. pose proof (len_nonneg chunk).
  cbn [fst snd] in Hp. destruct Hp as [->|[tag ->]].
  - rewrite decide_True by done. cbn [fmap list_fmap foldr]. lia.
  - rewrite decide_False by done. cbn [fmap list_fmap foldr fst]. lia.
Qed.

(** X15.  Every record is accounted for once.  In a cycle with something
    to flush and [metricLimit ≥ 1], the records counted on
    [flush.error_total] by the [flushPart] calls and the records of the
    chunks that counted nothing add up to the records of the cycle,
    whatever the backend answers to each chunk. *)
Theorem Server_Flush_conserves s interval L world :
  1 ≤ len (finalMetrics_of s interval) ≤ int_max → 1 ≤ L →
  ∃ r, Server_Flush s interval L world = Some r ∧
    lost (fr_parts r) + delivered (fr_parts r)
    = len (finalMetrics_of s interval) ∧
    0 ≤ lost (fr_parts r) ∧ 0 ≤ delivered (fr_parts r).
Proof.
  intros Hn HL.
  destruct (Server_Flush_parts s interval L world Hn HL) as (r & Hr & Hcs).
  exists r. split; [done|].
  destruct (chunk_arith (len (finalMetrics_of s interval)) L)
    as (HW & Hc & _); [lia..|].
  assert (concat (fr_parts r).*1 = finalMetrics_of s interval) as Hcat
    by (rewrite Hcs; apply concat_chunks; lia).
  rewrite <-Hcat. apply parts_conserved.
  rewrite Server_Flush_eq in Hr by lia. cbv zeta in Hr.
  rewrite decide_False in Hr by lia.
  destruct (chunks _ _ _) as [[[W c] cs]|]; [|done].
  cbn [mbind option_bind] in Hr. injection Hr as <-. cbn [fr_parts].
  apply Forall_lookup. intros i [chunk tr].
  rewrite list_lookup_imap. destruct (cs !! i) as [chunk'|]; [|done].
  intros [= <- <-]. apply flushPart_failures.
Qed.

(** X16.  What [flushPart] logs.  Each way of failing leaves its own
    line at level [Error], and only that one; a response with status 202
    leaves the line "POSTing JSON" at level [Debug] and, unless its body
    could not be read, nothing at level [Error]; a body that could not
    be read adds the line "Error reading response body" and changes
    nothing else. *)
Theorem flushPart_logs s env (chunk : list DDM) :
  let tr := Server_flushPart s env chunk in
  match outcome_of s env chunk with
  | SerializationError =>
      logs_at Error tr = ["Error rendering JSON request body"] ∧
      logs_at Debug tr = []
  | ConstructionError =>
      logs_at Error tr = ["Error constructing POST request"] ∧
      logs_at Debug tr = []
  | TransportError =>
      logs_at Error tr = ["Error writing POST request"] ∧
      logs_at Debug tr = []
  | Responded resp =>
      logs_at Error tr =
        (if rs_ReadErr resp then ["Error reading response body"] else [])
        ++ (if decide (rs_StatusCode resp = 202) then [] else ["Error POSTing"]) ∧
      logs_at Debug tr =
        (if decide (rs_StatusCode resp = 202) then ["POSTing JSON"] else [])
  end.
Proof.
  cbv zeta. unfold Server_flushPart, outcome_of, StatusAccepted.
  destruct (json_zlib env chunk) as [reqBody|]; [|split; reflexivity].
  destruct (http_NewRequest env _ _ reqBody) as [req|]; [|split; reflexivity].
  destruct (http_Do env _) as [resp|]; [|split; reflexivity].
  destruct (decide (rs_StatusCode resp = 202)) as [Heq|Hne].
  - rewrite (decide_False (P := rs_StatusCode resp ≠ 202)) by (by intros ?).
    destruct (rs_ReadErr resp); split; reflexivity.
  - rewrite (decide_True (P := rs_StatusCode resp ≠ 202)) by done.
    destruct (rs_ReadErr resp); split; reflexivity.
Qed.

End MoreFlushProps.

(** ** The mutex, the length of a run and the absence of deadlock *)

Section MoreConcurrencyProps.
Context `{Samplers}.
Local Abbreviation DDM := (DDMetric DDFields).

(** X17.  Mutual exclusion.  However the goroutines are scheduled, at
    most one of them is between [Lock] and [Unlock], and the mutex is
    held exactly when one is. *)
Theorem mutual_exclusion w0 ms interval sched c :
  exec interval (init w0 ms) sched = Some c →
  (holders c ≤ 1)%nat ∧ (c_mutex c = true ↔ holders c = 1%nat).
Proof.
  intros Hexec.
  destruct (exec_inv w0 ms interval sched _ c (init_inv w0 ms interval) Hexec)
    as [Hm _ _ _ _].
  rewrite Hm. destruct (c_mutex c); split; try lia; split; done.
Qed.

Local Abbreviation steps_left procs :=
  (foldr (λ (p : Metric * ProcessPc) acc, remaining_p p.2 + acc)%nat 0%nat
     procs).

Lemma steps_left_middle (l1 : list (Metric * ProcessPc)) p l2 :
  steps_left (l1 ++ p :: l2)
  = (steps_left l1 + remaining_p p.2 + steps_left l2)%nat.
Proof. induction l1 as [|q l1 IH]; simpl; [lia|]. rewrite IH. lia. Qed.

Lemma step_remaining interval c ch c' :
  step interval c ch = Some c' → remaining c = S (remaining c').
Proof.
  destruct c as [w mu fl procs hist]. unfold remaining.
  destruct ch as [|i]; cbn [step c_worker c_mutex c_flush c_procs c_hist].
  - destruct fl; try destruct mu; intros [= <-]; done.
  - destruct (procs !! i) as [[m pc]|] eqn:Hi; [|done].
    cbn [mbind option_bind].
    destruct (pool_split procs i (m, pc) Hi) as (l1 & l2 & -> & Hins).
    destruct pc; try destruct mu;
      try (destruct (sample_metric w m) as [[w' tr] []]);
      intros [= <-]; cbn [c_flush c_procs]; rewrite ?Hins;
      rewrite !steps_left_middle; cbn [snd remaining_p]; lia.
Qed.

Lemma init_remaining (w0 : Worker) ms :
  remaining (init w0 ms) = (4 * length ms + 5)%nat.
Proof.
  unfold remaining, init. cbn [c_flush c_procs remaining_f].
  induction ms as [|m ms IH]; [done|].
  rewrite fmap_cons. cbn [foldr snd remaining_p length]. lia.
Qed.

(** X18.  Every run ends.  Each [ProcessMetric] call takes four steps
    and the [Flush] call five, so a schedule of [k] steps leaves
    [4 * n + 5 - k] steps to take: no schedule is longer than
    [4 * n + 5], and the calls have all returned exactly when it has that
    length. *)
Theorem schedule_length w0 ms interval sched c :
  exec interval (init w0 ms) sched = Some c →
  (length sched + remaining c = 4 * length ms + 5)%nat ∧
  (finished c ↔ length sched = (4 * length ms + 5)%nat).
Proof.
  intros Hexec.
  assert (∀ sched c0 c1, exec interval c0 sched = Some c1 →
            (length sched + remaining c1 = remaining c0)%nat) as Hgen.
  { clear. induction sched as [|ch sched IH]; intros c0 c1; cbn [exec].
    - by intros [= <-].
    - destruct (step interval c0 ch) as [c'|] eqn:Hstep; [|done].
      cbn [mbind option_bind]. intros Hrest%IH.
      apply step_remaining in Hstep. cbn [length]. lia. }
  apply Hgen in Hexec. rewrite init_remaining in Hexec.
  split; [done|]. unfold finished. lia.
Qed.

Lemma sample_completion w m :
  (sample_metric w m).2 = if value_matches_kind m then Returns else Panics.
Proof.
  destruct (kind_cases m) as [Hk|[Hk|[Hk|[Hk|[Hk|Hk]]]]];
    [rewrite sample_metric_counter by done
    |rewrite sample_metric_gauge by done
    |rewrite sample_metric_histogram by done
    |rewrite sample_metric_set by done
    |rewrite sample_metric_timer by done
    |rewrite unknown_kind_sample, unknown_kind_matches by done];
    done.
Qed.

Lemma count_pc_pos f (l : list (Metric * ProcessPc)) :
  (0 < count_pc f l)%nat → ∃ i m pc, l !! i = Some (m, pc) ∧ f pc = true.
Proof.
  induction l as [|[m pc] l IH]; [by unfold count_pc; simpl; lia|].
  rewrite count_pc_cons. destruct (f pc) eqn:E.
  - intros _. by exists 0%nat, m, pc.
  - intros Hpos. destruct IH as (i & m' & pc' & Hi & Hf); [lia|].
    by exists (S i), m', pc'.
Qed.

Lemma count_pc_zero f (l : list (Metric * ProcessPc)) i m pc :
  count_pc f l = 0%nat → l !! i = Some (m, pc) → f pc = false.
Proof.
  intros Hz Hi. destruct (f pc) eqn:E; [|done].
  apply take_drop_middle in Hi. rewrite <-Hi, count_pc_middle, E in Hz. lia.
Qed.

Lemma steps_left_pos (l : list (Metric * ProcessPc)) :
  (0 < steps_left l)%nat →
  ∃ i m pc, l !! i = Some (m, pc) ∧ (0 < remaining_p pc)%nat.
Proof.
  induction l as [|[m pc] l IH]; [simpl; lia|]. cbn [foldr snd].
  destruct (decide (0 < remaining_p pc)%nat) as [Hpc|Hpc].
  - intros _. by exists 0%nat, m, pc.
  - intros Hpos. destruct IH as (i & m' & pc' & Hi & Hf); [lia|].
    by exists (S i), m', pc'.
Qed.

(** A goroutine that is between [Lock] and [Unlock] can always take its
    next step, as long as its value fits its kind. *)
Lemma holder_steps interval c i m pc :
  c_procs c !! i = Some (m, pc) →
  value_matches_kind m = true →
  in_critical_p pc = true ∨ (pc = P_start ∧ c_mutex c = false) →
  is_Some (step interval c (RunProcess i)).
Proof.
  intros Hi Hm Hpc. cbn [step]. rewrite Hi. cbn [mbind option_bind].
  destruct Hpc as [Hpc|[-> ->]]; [|done].
  destruct pc; try done.
  pose proof (sample_completion (c_worker c) m) as Hc. rewrite Hm in Hc.
  destruct (sample_metric (c_worker c) m) as [[w' tr] comp].
  cbn [snd] in Hc. by subst comp.
Qed.

(** X19.  No deadlock.  When every observation carries a value that fits
    its kind, a run that has not ended can always go on: in every
    configuration a schedule can reach, unless all calls have returned,
    some goroutine can take a step. *)
Theorem no_deadlock w0 ms interval sched c :
  Forall (λ m, value_matches_kind m = true) ms →
  exec interval (init w0 ms) sched = Some c →
  ¬ finished c →
  ∃ ch c', step interval c ch = Some c'.
Proof.
  intros Hms Hexec Hnot.
  destruct (exec_inv w0 ms interval sched _ c (init_inv w0 ms interval) Hexec)
    as [Hm _ Hp _ _].
  assert (∀ i m pc, c_procs c !! i = Some (m, pc) →
            value_matches_kind m = true) as Hfit.
  { intros i m pc Hi. eapply Forall_forall in Hms; [exact Hms|].
    rewrite <-Hp. apply list_elem_of_fmap. exists (m, pc). split; [done|].
    by eapply list_elem_of_lookup_2. }
  assert (∀ i m pc, c_procs c !! i = Some (m, pc) →
            in_critical_p pc = true ∨ (pc = P_start ∧ c_mutex c = false) →
            ∃ ch c', step interval c ch = Some c') as Hproc.
  { intros i m pc Hi Hpc. exists (RunProcess i).
    destruct (holder_steps interval c i m pc Hi (Hfit _ _ _ Hi) Hpc) as [c' ?].
    by exists c'. }
  unfold holders in Hm. unfold finished, remaining in Hnot.
  destruct (c_mutex c) eqn:Hmu.
  - (* the mutex is held: its holder goes on *)
    destruct (in_critical_f (c_flush c)) eqn:Hf.
    + exists RunFlush. cbn [step]. destruct (c_flush c); try done; by eexists.
    + destruct (count_pc_pos in_critical_p (c_procs c)) as (i & m & pc & Hi & Hc);
        [lia|]. eapply Hproc; [exact Hi|by left].
  - (* the mutex is free: whoever has not returned goes on *)
    destruct (in_critical_f (c_flush c)) eqn:Hf; [lia|].
    destruct (decide (0 < remaining_f (c_flush c))%nat) as [Hfl|Hfl].
    + exists RunFlush. cbn [step]. rewrite Hmu.
      destruct (c_flush c); try done; try by eexists. simpl in Hfl. lia.
    + destruct (steps_left_pos (c_procs c)) as (i & m & pc & Hi & Hpc); [lia|].
      pose proof (count_pc_zero in_critical_p (c_procs c) i m pc
                    ltac:(lia) Hi) as Hnc.
      eapply Hproc; [exact Hi|]. right. split; [|done].
      destruct pc; try done. simpl in Hpc. lia.
Qed.

End MoreConcurrencyProps.

(** ** More scenarios, run *)

Section MoreScenarios.
Local Existing Instance int_samplers.

Lemma small_server_records : len (finalMetrics_of small_server 0) = 5.
Proof. vm_compute. reflexivity. Qed.

Lemma small_cycle_eq :
  Server_Flush small_server 0 2 (λ _, accepting) = Some small_cycle.
Proof. vm_compute. reflexivity. Qed.

Lemma two_samples_fit : Forall (λ m, value_matches_kind m = true) two_samples.
Proof. repeat constructor. Qed.

Lemma Flush_self_counts_witness :
  let w1 := (Worker_Flush one_counter 0).1.1 in
  let tr := (Worker_Flush (run w1 two_samples) 0).2 in
  let flushed kind :=
    ECount "worker.metrics_flushed_total"
      (Z.of_nat (size (digests_of kind two_samples)))
      ["metric_type:" +:+ kind] Rate_1_0 in
  ECount "worker.metrics_processed_total" (len two_samples)
    ["worker:" +:+ pretty (w_id one_counter)] Rate_1_0 ∈ tr ∧
  flushed "counter" ∈ tr ∧ flushed "gauge" ∈ tr ∧ flushed "histogram" ∈ tr ∧
  flushed "set" ∈ tr ∧ flushed "timer" ∈ tr.
Proof.
  apply (Flush_self_counts one_counter 0 two_samples 0).
  vm_compute. discriminate.
Defined.

Lemma counter_series_flushed_witness :
  mkDDMetric ("counter", 3) ""
  ∈ (Worker_Flush (run fresh_worker mixed_samples) 0).1.2.
Proof.
  apply (counter_series_flushed fresh_worker mixed_samples 7
           counter_sample [counter_sample; counter_sample] 0).
  - reflexivity.
  - vm_compute. reflexivity.
  - vm_compute. apply list_elem_of_here.
Defined.

Lemma Work_stops_witness :
  let '(w', tr, e) :=
    Worker_Work one_counter
      ((Received <$> two_samples) ++ Quit :: [Received mistyped_sample]) in
  w' = run one_counter two_samples ∧ e = Stopped ∧
  last tr = Some (ELog Error [("worker", FInt (w_id one_counter))] "Stopping").
Proof.
  apply (Work_stops one_counter two_samples [Received mistyped_sample]).
  exact two_samples_fit.
Defined.

Lemma Work_waits_or_crashes_witness :
  (Worker_Work one_counter (Received <$> two_samples)).1.1
  = run one_counter two_samples ∧
  (Worker_Work one_counter (Received <$> two_samples)).2 = Waiting ∧
  (Worker_Work one_counter
     ((Received <$> two_samples) ++ Received mistyped_sample
        :: [Received counter_sample])).1.1
  = run one_counter (two_samples ++ [mistyped_sample]) ∧
  (Worker_Work one_counter
     ((Received <$> two_samples) ++ Received mistyped_sample
        :: [Received counter_sample])).2 = Crashed.
Proof.
  apply (Work_waits_or_crashes one_counter two_samples mistyped_sample
           [Received counter_sample]).
  - exact two_samples_fit.
  - reflexivity.
Defined.

Lemma small_server_bounds : 1 ≤ len (finalMetrics_of small_server 0) ≤ int_max.
Proof. rewrite small_server_records. unfold int_max. lia. Qed.

Lemma Server_Flush_records_witness :
  ∃ r, Server_Flush small_server 0 2 (λ _, accepting) = Some r ∧
    let sent := concat (fr_parts r).*1 in
    let flushed :=
      concat ((λ w, (Worker_Flush w 0).1.2) <$> s_Workers small_server) in
    dd_fields <$> sent = dd_fields <$> flushed ∧
    Forall (λ d, dd_Hostname d = s_Hostname small_server) sent.
Proof.
  apply (Server_Flush_records small_server 0 2 (λ _, accepting)).
  - exact small_server_bounds.
  - lia.
Defined.

Lemma Server_Flush_again_witness :
  fr_server small_cycle
  = with_Workers ((λ w, (Worker_Flush w 0).1.1) <$> s_Workers small_server)
      small_server ∧
  finalMetrics_of (fr_server small_cycle) 0 = [] ∧
  ∃ r', Server_Flush (fr_server small_cycle) 0 0 (λ _, rejecting) = Some r' ∧
        fr_parts r' = [].
Proof.
  apply (Server_Flush_again small_server 0 2 (λ _, accepting) small_cycle
           0 0 (λ _, rejecting)).
  - rewrite small_server_records. unfold int_max. lia.
  - exact small_cycle_eq.
Defined.

Lemma Server_Flush_zero_limit_witness :
  Server_Flush small_server 0 0 (λ _, accepting) = None.
Proof.
  apply (Server_Flush_zero_limit small_server 0 (λ _, accepting)).
  exact small_server_bounds.
Defined.

Lemma Server_Flush_negative_limit_witness :
  let fm := finalMetrics_of small_server 0 in
  let q := (len fm - 1) `quot` (-1) in
  (q = 0 →
   ∃ r, Server_Flush small_server 0 (-1) (λ _, accepting) = Some r ∧
        (fr_parts r).*1 = [fm]) ∧
  (q = -1 → Server_Flush small_server 0 (-1) (λ _, accepting) = None) ∧
  (q ≤ -2 →
   ∃ r, Server_Flush small_server 0 (-1) (λ _, accepting) = Some r ∧
        fr_parts r = [] ∧
        last (fr_trace r)
        = Some (ELog Info [("metrics", FInt (len fm))]
                  "Completed flush to Datadog")).
Proof.
  apply (Server_Flush_negative_limit small_server 0 (-1) (λ _, accepting)).
  - exact small_server_bounds.
  - lia.
Defined.

(** With a limit of -1 the five records are dropped and the cycle is
    logged as completed. *)
Example negative_limit_drops :
  ∃ r, Server_Flush small_server 0 (-1) (λ _, accepting) = Some r ∧
       fr_parts r = [] ∧
       last (fr_trace r)
       = Some (ELog Info [("metrics", FInt 5)] "Completed flush to Datadog").
Proof. eexists. split; [vm_compute; reflexivity|]. by split. Qed.

Lemma Server_Flush_chunk_layout_witness :
  let fm := finalMetrics_of small_server 0 in
  let W := ceil_div (len fm) 2 in
  let c := ceil_div (len fm) W in
  ∃ r, Server_Flush small_server 0 2 (λ _, accepting) = Some r ∧
    (W - 1) * 2 < len fm ∧
    ∀ (i : nat) chunk, (fr_parts r).*1 !! i = Some chunk →
      chunk = take (Z.to_nat c) (drop (Z.to_nat (Z.of_nat i * c)) fm) ∧
      1 ≤ len chunk ∧
      (Z.of_nat i < W - 1 → len chunk = c).
Proof.
  apply (Server_Flush_chunk_layout small_server 0 2 (λ _, accepting)).
  - exact small_server_bounds.
  - lia.
Defined.

Lemma Server_Flush_conserves_witness :
  ∃ r, Server_Flush small_server 0 2 rejecting_second = Some r ∧
    lost (fr_parts r) + delivered (fr_parts r)
    = len (finalMetrics_of small_server 0) ∧
    0 ≤ lost (fr_parts r) ∧ 0 ≤ delivered (fr_parts r).
Proof.
  apply (Server_Flush_conserves small_server 0 2 rejecting_second).
  - exact small_server_bounds.
  - lia.
Defined.

(** Five records in chunks of 2, 2 and 1, the second rejected: two
    records are counted as failed and three are delivered. *)
Example second_chunk_rejected :
  ∃ r, Server_Flush small_server 0 2 rejecting_second = Some r ∧
       len <$> (fr_parts r).*1 = [2; 2; 1] ∧
       lost (fr_parts r) = 2 ∧ delivered (fr_parts r) = 3.
Proof. eexists. split; [vm_compute; reflexivity|]. by vm_compute. Qed.

Lemma interleaved_end_eq :
  exec 0 (init one_counter two_samples) interleaved = Some interleaved_end.
Proof. vm_compute. reflexivity. Qed.

Lemma interleaved_mid_eq :
  exec 0 (init one_counter two_samples) (take 3 interleaved)
  = Some interleaved_mid.
Proof. vm_compute. reflexivity. Qed.

Lemma mutual_exclusion_witness :
  (holders interleaved_mid ≤ 1)%nat ∧
  (c_mutex interleaved_mid = true ↔ holders interleaved_mid = 1%nat).
Proof.
  apply (mutual_exclusion one_counter two_samples 0 (take 3 interleaved)).
  exact interleaved_mid_eq.
Defined.

Lemma schedule_length_witness :
  (length interleaved + remaining interleaved_end
   = 4 * length two_samples + 5)%nat ∧
  (finished interleaved_end
   ↔ length interleaved = (4 * length two_samples + 5)%nat).
Proof.
  apply (schedule_length one_counter two_samples 0 interleaved).
  exact interleaved_end_eq.
Defined.

Lemma no_deadlock_witness :
  ∃ ch c', step 0 interleaved_mid ch = Some c'.
Proof.
  apply (no_deadlock one_counter two_samples 0 (take 3 interleaved)).
  - exact two_samples_fit.
  - exact interleaved_mid_eq.
  - unfold finished. vm_compute. discriminate.
Defined.

End MoreScenarios.
